(** * The RunPod zero-shot classification worker (runpod_worker/handler.py)

    A shallow embedding of the two functions of the worker, [load_model]
    and [handler], and of the module-level script that calls them.

    - Python values are modelled by the data they carry: a [str] is a
      [string] whose characters are code points below 256, the request is
      a JSON value, a probability is an exact rational ([Q]; every finite
      float is one), a score returned by [round(x, 4)] is the decimal
      [k/10000] it denotes.
    - The three module globals [model], [processor], [labels] are an
      explicit store threaded through a state-and-exception monad.
    - Everything the worker imports (transformers, torch, PIL, base64, the
      file system, the rendering [str(e)] of an exception) is a field of
      the record [Runtime]; what the theorems need of torch is stated as
      separate contracts, and one concrete runtime inhabits them. *)

From Stdlib Require Import String Ascii Bool Arith ZArith QArith Qround Qabs List.
From Stdlib Require Import Lia Lqa Permutation Sorted.
Import ListNotations.

Set Implicit Arguments.
Set Warnings "-register-all".
Close Scope Q_scope.

(* ================================================================== *)
(** * Python strings *)
(* ================================================================== *)

Module PyStr.

(** [str.isspace] on one character, for code points below 256:
    TAB..CR, FS..US, SPACE, NEL (0x85) and NBSP (0xA0). *)
Definition isspace (c : ascii) : bool :=
  let n := nat_of_ascii c in
  ((9 <=? n) && (n <=? 13)) || ((28 <=? n) && (n <=? 32))
  || (n =? 133) || (n =? 160).

Definition LF : ascii := ascii_of_nat 10.
Definition CR : ascii := ascii_of_nat 13.

Fixpoint lstrip (s : string) : string :=
  match s with
  | EmptyString => EmptyString
  | String c s' => if isspace c then lstrip s' else s
  end.

Fixpoint rstrip (s : string) : string :=
  match s with
  | EmptyString => EmptyString
  | String c s' =>
      match rstrip s' with
      | EmptyString => if isspace c then EmptyString else String c EmptyString
      | r => String c r
      end
  end.

(** [s.strip()] with no argument. *)
Definition strip (s : string) : string := rstrip (lstrip s).

(** Truth value of a string: [if s] holds when [s] is not empty. *)
Definition truthy (s : string) : bool :=
  match s with EmptyString => false | String _ _ => true end.

(** Text mode with the default [newline=None]: on input "\r\n" and a
    lone "\r" are both delivered as "\n". *)
Fixpoint universal_newlines (s : string) : string :=
  match s with
  | EmptyString => EmptyString
  | String c s' =>
      if Ascii.eqb c CR then
        match s' with
        | String c' _ =>
            if Ascii.eqb c' LF then universal_newlines s'
            else String LF (universal_newlines s')
        | EmptyString => String LF EmptyString
        end
      else String c (universal_newlines s')
  end.

(** Cut a text after every "\n"; each line keeps its terminator, the
    last line may lack one, the empty text has no line. *)
Fixpoint split_keepends (s : string) : list string :=
  match s with
  | EmptyString => []
  | String c s' =>
      if Ascii.eqb c LF then String c EmptyString :: split_keepends s'
      else match split_keepends s' with
           | [] => [String c EmptyString]
           | l :: ls => String c l :: ls
           end
  end.

(** [f.readlines()] on a file opened with mode "r" whose decoded
    content is [text]. *)
Definition readlines (text : string) : list string :=
  split_keepends (universal_newlines text).

Definition has_nonspace (s : string) : bool :=
  existsb (fun c => negb (isspace c)) (list_ascii_of_string s).

End PyStr.

(* ================================================================== *)
(** * Requests, exceptions, responses *)
(* ================================================================== *)

(** The job handed to [handler] is a decoded JSON document. *)
Inductive json : Type :=
| JNull
| JBool (b : bool)
| JNum (q : Q)
| JStr (s : string)
| JArr (items : list json)
| JObj (fields : list (string * json)).

(** The exceptions the worker's own code can raise, and [LibError] for
    any [Exception] raised inside an imported library. Only instances of
    [Exception] are modelled, the class the [except] clause of [handler]
    names; interrupts and interpreter exit are not. *)
Inductive exn : Type :=
| KeyError (key : string)
| TypeError
| AttributeError
| IndexError
| LibError (msg : string).

Inductive result (A : Type) : Type :=
| Ok (a : A)
| Raise (e : exn).
Arguments Ok {A} a.
Arguments Raise {A} e.

(** One element of the returned list: [{"label": ..., "score": ...}]. *)
Record entry : Type := { label : string; score : Q }.

(** What [handler] returns: the list of entries, or [{"error": msg}]. *)
Inductive response : Type :=
| Results (rs : list entry)
| ErrorObj (msg : string).

Fixpoint assoc (key : string) (fields : list (string * json)) : option json :=
  match fields with
  | [] => None
  | (k, v) :: rest => if String.eqb k key then Some v else assoc key rest
  end.

(** [v[key]] for a string key: a dict looks the key up, every other JSON
    value rejects a string subscript. *)
Definition py_getitem (v : json) (key : string) : result json :=
  match v with
  | JObj fields =>
      match assoc key fields with
      | Some x => Ok x
      | None => Raise (KeyError key)
      end
  | _ => Raise TypeError
  end.

(* ================================================================== *)
(** * Python's [round(x, ndigits)] *)
(* ================================================================== *)

(** Nearest integer, ties to the even neighbour. *)
Definition round_half_even (x : Q) : Z :=
  let f := Qfloor x in
  match (x - inject_Z f ?= 1 # 2)%Q with
  | Lt => f
  | Gt => (f + 1)%Z
  | Eq => if Z.even f then f else (f + 1)%Z
  end.

(** [round(x, ndigits)] for [ndigits >= 0], as the decimal it denotes. *)
Definition py_round (x : Q) (ndigits : nat) : Q :=
  let scale := Z.to_pos (10 ^ Z.of_nat ndigits) in
  Qmake (round_half_even (x * inject_Z (Z.pos scale))%Q) scale.

Fixpoint Qsum (l : list Q) : Q :=
  match l with
  | [] => 0%Q
  | x :: xs => (x + Qsum xs)%Q
  end.

(** [l[i]] on a list or a one-dimensional tensor, for [i >= 0]. *)
Definition py_index {A : Type} (l : list A) (i : nat) : result A :=
  match nth_error l i with
  | Some x => Ok x
  | None => Raise IndexError
  end.

(* ================================================================== *)
(** * The imported libraries *)
(* ================================================================== *)

(** Each field is one call the worker makes into a library; a call that
    can raise returns a [result]. A logit tensor of shape (images, texts)
    is a list of rows. *)
Record Runtime : Type := {
  Model : Type;
  Processor : Type;
  Image : Type;
  Inputs : Type;
  Device : Type;
  Logit : Type;
  (* cold start *)
  AutoModel_from_pretrained : string -> result Model;
  AutoProcessor_from_pretrained : string -> result Processor;
  cuda_is_available : bool;
  Model_to : Model -> string -> result Model;
  Model_eval : Model -> result Model;
  open_read : string -> result string;
  (* per request *)
  b64decode : json -> result (list Byte.byte);
  Image_open : list Byte.byte -> result Image;
  Image_convert : Image -> string -> result Image;
  processor_call : Processor -> list string -> Image -> result Inputs;
  parameters_device : Model -> result Device;
  Inputs_to : Inputs -> Device -> result Inputs;
  model_logits_per_image : Model -> Inputs -> result (list (list Logit));
  softmax : list Logit -> list Q;
  argsort_descending : list Q -> list nat;
  (* the interpreter *)
  exn_str : exn -> string
}.

(* ================================================================== *)
(** * The worker *)
(* ================================================================== *)

Declare Scope py_scope.
Delimit Scope py_scope with py.

Section Worker.

Variable rt : Runtime.

(** The module globals; [None] is Python's [None]. *)
Record globals : Type := {
  model : option (Model rt);
  processor : option (Processor rt);
  labels : list string
}.

(** A computation reads and writes the globals and may raise. *)
Definition M (A : Type) : Type := globals -> result A * globals.

Definition ret {A : Type} (a : A) : M A := fun g => (Ok a, g).

Definition bind {A B : Type} (m : M A) (k : A -> M B) : M B :=
  fun g =>
    match m g with
    | (Ok a, g') => k a g'
    | (Raise e, g') => (Raise e, g')
    end.

Definition lift {A : Type} (r : result A) : M A := fun g => (r, g).

Definition read {A : Type} (f : globals -> A) : M A := fun g => (Ok (f g), g).

Definition write (f : globals -> globals) : M unit := fun g => (Ok tt, f g).

(** [try: m except Exception as e: h e]. *)
Definition try_except {A : Type} (m : M A) (h : exn -> M A) : M A :=
  fun g =>
    match m g with
    | (Ok a, g') => (Ok a, g')
    | (Raise e, g') => h e g'
    end.

Local Notation "x <- m ;; k" := (bind m (fun x => k))
  (at level 61, m at next level, right associativity) : py_scope.
Local Notation "m ;; k" := (bind m (fun _ => k))
  (at level 61, right associativity) : py_scope.
Local Open Scope py_scope.
Local Open Scope string_scope.

(** [[f x for x in l]], evaluated left to right. *)
Fixpoint for_each {A B : Type} (f : A -> M B) (l : list A) : M (list B) :=
  match l with
  | [] => ret []
  | x :: xs => y <- f x ;; ys <- for_each f xs ;; ret (y :: ys)
  end.

Definition set_model (m : option (Model rt)) (g : globals) : globals :=
  {| model := m; processor := processor g; labels := labels g |}.
Definition set_processor (p : option (Processor rt)) (g : globals) : globals :=
  {| model := model g; processor := p; labels := labels g |}.
Definition set_labels (ls : list string) (g : globals) : globals :=
  {| model := model g; processor := processor g; labels := ls |}.

(** Using the global [model] as an object ([model.to], [model.parameters],
    [model(...)]), resp. calling the global [processor]: on [None] the
    first is an AttributeError or TypeError, the second a TypeError. *)
Definition the_model : M (Model rt) :=
  fun g => match model g with
           | Some m => (Ok m, g)
           | None => (Raise AttributeError, g)
           end.
Definition the_processor : M (Processor rt) :=
  fun g => match processor g with
           | Some p => (Ok p, g)
           | None => (Raise TypeError, g)
           end.

(** [load_model()], lines 14-35. [model.eval()] changes the model
    object in place; with objects modelled as values this is a new
    binding of the global. Console output is left out. *)
Definition load_model : M unit :=
  let model_name := "google/siglip-base-patch16-224" in
  m <- lift (AutoModel_from_pretrained rt model_name) ;;
  write (set_model (Some m)) ;;
  p <- lift (AutoProcessor_from_pretrained rt model_name) ;;
  write (set_processor (Some p)) ;;
  let device := if cuda_is_available rt then "cuda" else "cpu" in
  m <- the_model ;;
  m <- lift (Model_to rt m device) ;;
  write (set_model (Some m)) ;;
  m <- the_model ;;
  m <- lift (Model_eval rt m) ;;
  write (set_model (Some m)) ;;
  text <- lift (open_read rt "labels.txt") ;;
  write (set_labels
           (map PyStr.strip
              (filter (fun line => PyStr.truthy (PyStr.strip line))
                 (PyStr.readlines text)))).

(** The body of the [try] block of [handler], lines 45-75. *)
Definition handler_body (event : json) : M (list entry) :=
  input <- lift (py_getitem event "input") ;;
  image_base64 <- lift (py_getitem input "image_base64") ;;
  image_bytes <- lift (b64decode rt image_base64) ;;
  image <- lift (Image_open rt image_bytes) ;;
  image <- lift (Image_convert rt image "RGB") ;;
  ls <- read labels ;;
  let text_inputs := map (fun label => "a photo of " ++ label) ls in
  proc <- the_processor ;;
  inputs <- lift (processor_call rt proc text_inputs image) ;;
  m <- the_model ;;
  device <- lift (parameters_device rt m) ;;
  inputs <- lift (Inputs_to rt inputs device) ;;
  m <- the_model ;;
  logits_per_image <- lift (model_logits_per_image rt m inputs) ;;
  probs <- lift (py_index (map (softmax rt) logits_per_image) 0) ;;
  let top5_indices := firstn 5 (argsort_descending rt probs) in
  for_each
    (fun idx =>
       ls <- read labels ;;
       l <- lift (py_index ls idx) ;;
       p <- lift (py_index probs idx) ;;
       ret {| label := l; score := py_round p 4 |})
    top5_indices.

(** [handler(event)], lines 38-79. *)
Definition handler (event : json) : M response :=
  try_except
    (results <- handler_body event ;; ret (Results results))
    (fun e => ret (ErrorObj (exn_str rt e))).

(** The module at import time: the three globals (lines 9-11), then
    [load_model()] (line 84), then
    [runpod.serverless.start({"handler": handler})] (line 88). What the
    framework does with the handler is not the worker's code: it is a
    parameter, any computation that is handed [handler]. *)
Definition initial_globals : globals :=
  {| model := None; processor := None; labels := [] |}.

Definition worker (serverless_start : (json -> M response) -> M unit)
  : M unit :=
  load_model ;; serverless_start handler.

End Worker.

Arguments load_model : clear implicits.
Arguments handler_body : clear implicits.
Arguments handler : clear implicits.
Arguments worker : clear implicits.

(* ================================================================== *)
(** * What the theorems assume of torch *)
(* ================================================================== *)

(** [idxs] lists positions of [v] by non-increasing value. *)
Definition descending (v : list Q) (idxs : list nat) : Prop :=
  StronglySorted (fun i j => (nth j v 0 <= nth i v 0)%Q) idxs.

(** [v.argsort(descending=True)] is a permutation of the positions of
    [v] that lists them by non-increasing value; the order of ties is
    left open. *)
Record argsort_contract (rt : Runtime) : Prop := {
  argsort_perm :
    forall v, Permutation (argsort_descending rt v) (seq 0 (length v));
  argsort_sorted :
    forall v, descending v (argsort_descending rt v)
}.

(** A softmax row has one entry per column of the logit row. *)
Definition softmax_keeps_length (rt : Runtime) : Prop :=
  forall row, length (softmax rt row) = length row.

(** Every entry of a softmax row lies between 0 and 1. Nothing is
    assumed of the sum of a row: in floating point it need not be 1. *)
Definition softmax_in_unit_interval (rt : Runtime) : Prop :=
  forall row p, In p (softmax rt row) -> (0 <= p <= 1)%Q.

(** [logits_per_image] has one column per text handed to the processor. *)
Definition logits_contract (rt : Runtime) : Prop :=
  forall proc m texts img inp d inp' rows,
    processor_call rt proc texts img = Ok inp ->
    Inputs_to rt inp d = Ok inp' ->
    model_logits_per_image rt m inp' = Ok rows ->
    Forall (fun row => length row = length texts) rows.

(** Sum of the scores of a returned list. *)
Definition score_sum (rs : list entry) : Q := Qsum (map score rs).

(* ================================================================== *)
(** * A concrete runtime *)
(* ================================================================== *)

(** An executable stand-in for the libraries, used to run the worker on
    concrete requests. A logit is kept as its exponential, a positive
    integer weight, so that softmax is exact: [w_i / (w_1 + ... + w_n)]. *)
Module Sim.

Local Open Scope string_scope.

Fixpoint insert_desc (v : list Q) (i : nat) (l : list nat) : list nat :=
  match l with
  | [] => [i]
  | j :: l' =>
      if Qle_bool (nth j v 0%Q) (nth i v 0%Q) then i :: l
      else j :: insert_desc v i l'
  end.

(** Insertion sort of the positions, earlier position first on ties. *)
Definition argsort (v : list Q) : list nat :=
  fold_right (insert_desc v) [] (seq 0 (length v)).

Definition total (ws : list positive) : Z :=
  fold_right (fun w acc => (Z.pos w + acc)%Z) 0%Z ws.

Definition normalise (ws : list positive) : list Q :=
  map (fun w => Qmake (Z.pos w) (Z.to_pos (total ws))) ws.

Definition render (e : exn) : string :=
  match e with
  | KeyError key => "'" ++ key ++ "'"
  | TypeError => "TypeError"
  | AttributeError => "AttributeError"
  | IndexError => "IndexError"
  | LibError msg => msg
  end.

(** [labels_txt] is the content of labels.txt, [weight] the weight the
    model gives a prompt (for every image). *)
Definition runtime (labels_txt : string) (weight : string -> positive)
  : Runtime :=
  {| Model := unit;
     Processor := unit;
     Image := list Byte.byte;
     Inputs := list string;
     Device := unit;
     Logit := positive;
     AutoModel_from_pretrained := fun _ => Ok tt;
     AutoProcessor_from_pretrained := fun _ => Ok tt;
     cuda_is_available := false;
     Model_to := fun m _ => Ok m;
     Model_eval := fun m => Ok m;
     open_read := fun path =>
       if String.eqb path "labels.txt" then Ok labels_txt
       else Raise (LibError "No such file or directory");
     b64decode := fun v =>
       match v with
       | JStr s => Ok (list_byte_of_string s)
       | _ => Raise (LibError "argument should be a bytes-like object or ASCII string")
       end;
     Image_open := fun bytes =>
       match bytes with
       | [] => Raise (LibError "cannot identify image file")
       | _ => Ok bytes
       end;
     Image_convert := fun img _ => Ok img;
     processor_call := fun _ texts _ => Ok texts;
     parameters_device := fun _ => Ok tt;
     Inputs_to := fun inp _ => Ok inp;
     model_logits_per_image := fun _ texts => Ok [map weight texts];
     softmax := normalise;
     argsort_descending := argsort;
     exn_str := render |}.

(** A text file with the given lines, each ended by "\n". *)
Definition text_of_lines (lines : list string) : string :=
  fold_right (fun line rest => line ++ String PyStr.LF rest) "" lines.

(** Five labels; the first outweighs the other four. *)
Definition five_labels : string :=
  text_of_lines ["cat"; "dog"; "bird"; "fish"; "frog"].

Definition skewed (prompt : string) : positive :=
  if String.eqb prompt "a photo of cat" then 99976%positive else 6%positive.

Definition rt5 : Runtime := runtime five_labels skewed.

(** The job [{"input": {"image_base64": "aGk="}}]. *)
Definition job : json :=
  JObj [("input", JObj [("image_base64", JStr "aGk=")])].

(** The flat document [{"image_base64": "aGk="}]. *)
Definition flat_job : json := JObj [("image_base64", JStr "aGk=")].

(** The globals once [load_model()] has run. *)
Definition g5 : globals rt5 := snd (load_model rt5 (initial_globals rt5)).

(** The same labels with two distinct weights next to each other:
    probabilities 0.99975, 0.00007 and three times 0.00006. *)
Definition close_pair (prompt : string) : positive :=
  if String.eqb prompt "a photo of cat" then 99975%positive
  else if String.eqb prompt "a photo of dog" then 7%positive
  else 6%positive.

Definition rt_close : Runtime := runtime five_labels close_pair.

Definition g_close : globals rt_close :=
  snd (load_model rt_close (initial_globals rt_close)).

(** The probabilities of [rt_close], in label order. *)
Definition probs_close : list Q :=
  [ Qmake 99975 100000; Qmake 7 100000; Qmake 6 100000;
    Qmake 6 100000; Qmake 6 100000 ].

(** What [handler] returns for [job] under [rt_close]. *)
Definition top5_close : list entry :=
  [ {| label := "cat"; score := Qmake 9998 10000 |};
    {| label := "dog"; score := Qmake 1 10000 |};
    {| label := "bird"; score := Qmake 1 10000 |};
    {| label := "fish"; score := Qmake 1 10000 |};
    {| label := "frog"; score := Qmake 1 10000 |} ].

(** A labels.txt with blank lines only. *)
Definition blank_labels : string := text_of_lines [""; "   "].

Definition rt_blank : Runtime := runtime blank_labels skewed.

(** The probabilities of [rt5], in label order; they add up to 1. *)
Definition probs5 : list Q :=
  [ Qmake 99976 100000; Qmake 6 100000; Qmake 6 100000;
    Qmake 6 100000; Qmake 6 100000 ].

(** What [handler] returns for [job]: probabilities 0.99976 and four
    times 0.00006, each rounded to four places. *)
Definition top5 : list entry :=
  [ {| label := "cat"; score := Qmake 9998 10000 |};
    {| label := "dog"; score := Qmake 1 10000 |};
    {| label := "bird"; score := Qmake 1 10000 |};
    {| label := "fish"; score := Qmake 1 10000 |};
    {| label := "frog"; score := Qmake 1 10000 |} ].

End Sim.

(* ================================================================== *)
(** * Reading a run of [handler] *)
(* ================================================================== *)

Section Reading.

Variable rt : Runtime.
Local Open Scope string_scope.

(** [forward g event probs]: under the globals [g], every step of the
    [try] block up to line 66 succeeds on [event], and [probs] is the
    first row of the softmax of the model's logits. *)
Definition forward (g : globals rt) (event : json) (probs : list Q) : Prop :=
  exists input image_base64 image_bytes img image proc inputs m device
         inputs' logits,
    py_getitem event "input" = Ok input /\
    py_getitem input "image_base64" = Ok image_base64 /\
    b64decode rt image_base64 = Ok image_bytes /\
    Image_open rt image_bytes = Ok img /\
    Image_convert rt img "RGB" = Ok image /\
    processor g = Some proc /\
    processor_call rt proc
      (map (fun label => "a photo of " ++ label) (labels g)) image
      = Ok inputs /\
    model g = Some m /\
    parameters_device rt m = Ok device /\
    Inputs_to rt inputs device = Ok inputs' /\
    model_logits_per_image rt m inputs' = Ok logits /\
    py_index (map (softmax rt) logits) 0 = Ok probs.

(** The entry built at lines 70-73 for the position [idx]. *)
Definition entry_at (ls : list string) (probs : list Q) (idx : nat)
    (r : entry) : Prop :=
  nth_error ls idx = Some (label r) /\
  exists p, nth_error probs idx = Some p /\ score r = py_round p 4.

(** The element expression of the list comprehension of lines 70-73. *)
Definition build_entry (probs : list Q) (idx : nat) : M rt entry :=
  bind (read (@labels rt)) (fun ls =>
  bind (lift (py_index ls idx)) (fun l =>
  bind (lift (py_index probs idx)) (fun p =>
  ret {| label := l; score := py_round p 4 |}))).

(** [rs] is the top five of the request: the entries of the first
    five positions (all of them if there are fewer than five labels)
    in an order of the label positions by non-increasing probability,
    each with the label at its position, and no position left out has
    a larger probability than one that was taken. *)
Definition top5_of (g : globals rt) (event : json) (rs : list entry) : Prop :=
  exists probs,
    forward g event probs /\
    length probs = length (labels g) /\
    let idxs := argsort_descending rt probs in
    Permutation idxs (seq 0 (length (labels g))) /\
    descending probs idxs /\
    length rs = Nat.min 5 (length (labels g)) /\
    (forall i r, nth_error rs i = Some r ->
       exists idx p,
         nth_error idxs i = Some idx /\
         nth_error (labels g) idx = Some (label r) /\
         nth_error probs idx = Some p /\
         score r = py_round p 4) /\
    (forall k idx,
       k < length (labels g) -> ~ In k (firstn 5 idxs) ->
       In idx (firstn 5 idxs) ->
       (nth k probs 0 <= nth idx probs 0)%Q).

(** A computation that leaves the globals as it found them. *)
Definition read_only {A : Type} (m : M rt A) : Prop :=
  forall g, snd (m g) = g.

End Reading.

(* ================================================================== *)
(** * Label files and start-up *)
(* ================================================================== *)

(** The list [load_model] builds from the text of labels.txt, lines
    32-33. *)
Definition labels_of_text (text : string) : list string :=
  map PyStr.strip
    (filter (fun line => PyStr.truthy (PyStr.strip line))
       (PyStr.readlines text)).

(** [s] holds neither a line feed nor a carriage return. *)
Definition one_line (s : string) : Prop :=
  ~ In PyStr.LF (list_ascii_of_string s)
  /\ ~ In PyStr.CR (list_ascii_of_string s).

(** A text file with the given lines, each ended by "\r\n". *)
Definition text_of_lines_crlf (lines : list string) : string :=
  fold_right
    (fun line rest => (line ++ String PyStr.CR (String PyStr.LF rest))%string)
    EmptyString lines.

(** [s] does not start with white space. *)
Definition starts_clean (s : string) : Prop :=
  match s with
  | EmptyString => True
  | String c _ => PyStr.isspace c = false
  end.

(** The runtime [rt] with a model whose forward pass always raises. *)
Definition with_failing_model (rt : Runtime) (msg : string) : Runtime :=
  {| Model := Model rt;
     Processor := Processor rt;
     Image := Image rt;
     Inputs := Inputs rt;
     Device := Device rt;
     Logit := Logit rt;
     AutoModel_from_pretrained := AutoModel_from_pretrained rt;
     AutoProcessor_from_pretrained := AutoProcessor_from_pretrained rt;
     cuda_is_available := cuda_is_available rt;
     Model_to := Model_to rt;
     Model_eval := Model_eval rt;
     open_read := open_read rt;
     b64decode := b64decode rt;
     Image_open := Image_open rt;
     Image_convert := Image_convert rt;
     processor_call := processor_call rt;
     parameters_device := parameters_device rt;
     Inputs_to := Inputs_to rt;
     model_logits_per_image := fun _ _ => Raise (LibError msg);
     softmax := softmax rt;
     argsort_descending := argsort_descending rt;
     exn_str := exn_str rt |}.

(** The runtime [rt] on a machine where no file can be opened. *)
Definition without_files (rt : Runtime) : Runtime :=
  {| Model := Model rt;
     Processor := Processor rt;
     Image := Image rt;
     Inputs := Inputs rt;
     Device := Device rt;
     Logit := Logit rt;
     AutoModel_from_pretrained := AutoModel_from_pretrained rt;
     AutoProcessor_from_pretrained := AutoProcessor_from_pretrained rt;
     cuda_is_available := cuda_is_available rt;
     Model_to := Model_to rt;
     Model_eval := Model_eval rt;
     open_read := fun _ => Raise (LibError "No such file or directory");
     b64decode := b64decode rt;
     Image_open := Image_open rt;
     Image_convert := Image_convert rt;
     processor_call := processor_call rt;
     parameters_device := parameters_device rt;
     Inputs_to := Inputs_to rt;
     model_logits_per_image := model_logits_per_image rt;
     softmax := softmax rt;
     argsort_descending := argsort_descending rt;
     exn_str := exn_str rt |}.

(* ================================================================== *)
(** * Rounding *)
(* ================================================================== *)

Section Rounding.

Local Open Scope Q_scope.

Lemma inject_Z_succ (z : Z) : inject_Z (z + 1) == inject_Z z + 1.
Proof. rewrite inject_Z_plus. reflexivity. Qed.

(** The rounded integer is within one half of the argument. *)
Lemma round_half_even_near (x : Q) :
  inject_Z (round_half_even x) - (1 # 2) <= x
  /\ x <= inject_Z (round_half_even x) + (1 # 2).
Proof.
  unfold round_half_even.
  pose proof (Qfloor_le x) as Hlo.
  pose proof (Qlt_floor x) as Hhi.
  rewrite inject_Z_succ in Hhi.
  destruct (Qcompare_spec (x - inject_Z (Qfloor x)) (1 # 2)) as [He | Hl | Hg].
  - destruct (Z.even (Qfloor x)); rewrite ?inject_Z_succ; split; lra.
  - split; lra.
  - rewrite inject_Z_succ. split; lra.
Qed.

Lemma round_half_even_bounds (x : Q) :
  (Qfloor x <= round_half_even x <= Qfloor x + 1)%Z.
Proof.
  unfold round_half_even.
  destruct (x - inject_Z (Qfloor x) ?= 1 # 2); try lia.
  destruct (Z.even (Qfloor x)); lia.
Qed.

(** Rounding never reverses an order. *)
Lemma round_half_even_mono (x y : Q) :
  x <= y -> (round_half_even x <= round_half_even y)%Z.
Proof.
  intros Hxy.
  pose proof (Qfloor_resp_le _ _ Hxy) as Hf.
  destruct (Z.eq_dec (Qfloor x) (Qfloor y)) as [E | N].
  - unfold round_half_even. rewrite E.
    destruct (Qcompare_spec (x - inject_Z (Qfloor y)) (1 # 2)) as [He | Hl | Hg];
      destruct (Qcompare_spec (y - inject_Z (Qfloor y)) (1 # 2)) as [He' | Hl' | Hg'];
      try destruct (Z.even (Qfloor y)); try lia; exfalso; lra.
  - pose proof (round_half_even_bounds x).
    pose proof (round_half_even_bounds y).
    lia.
Qed.

Lemma round_half_even_inject (z : Z) : round_half_even (inject_Z z) = z.
Proof.
  unfold round_half_even. rewrite Qfloor_Z.
  destruct (Qcompare_spec (inject_Z z - inject_Z z) (1 # 2)) as [He | Hl | Hg];
    try reflexivity; exfalso; lra.
Qed.

Lemma round_half_even_Qeq (x y : Q) :
  x == y -> round_half_even x = round_half_even y.
Proof.
  intros E. apply Z.le_antisymm; apply round_half_even_mono; lra.
Qed.

Lemma py_round4_unfold (p : Q) :
  py_round p 4 = Qmake (round_half_even (p * 10000)) 10000.
Proof. reflexivity. Qed.

Lemma Qmake_10000 (z : Z) : Qmake z 10000 == inject_Z z / 10000.
Proof. unfold Qeq, Qdiv, Qmult, Qinv, inject_Z. simpl. lia. Qed.

Lemma py_round4_mono (p q : Q) : p <= q -> py_round p 4 <= py_round q 4.
Proof.
  intros H. rewrite !py_round4_unfold.
  assert (Hz : (round_half_even (p * 10000) <= round_half_even (q * 10000))%Z)
    by (apply round_half_even_mono; lra).
  unfold Qle. simpl. lia.
Qed.

(** A rounded score is at most half a unit of the fourth decimal away
    from the probability. *)
Lemma py_round4_near (p : Q) :
  p - (1 # 20000) <= py_round p 4 /\ py_round p 4 <= p + (1 # 20000).
Proof.
  rewrite py_round4_unfold, Qmake_10000.
  destruct (round_half_even_near (p * 10000)) as [H1 H2].
  split.
  - apply Qle_shift_div_l; lra.
  - apply Qle_shift_div_r; lra.
Qed.

Lemma py_round4_range (p : Q) : 0 <= p <= 1 -> 0 <= py_round p 4 <= 1.
Proof.
  intros [H0 H1]. split.
  - assert (E : py_round 0 4 == 0) by (vm_compute; reflexivity).
    rewrite <- E. now apply py_round4_mono.
  - assert (E : py_round 1 4 == 1) by (vm_compute; reflexivity).
    rewrite <- E. now apply py_round4_mono.
Qed.

End Rounding.

(* ================================================================== *)
(** * The monad *)
(* ================================================================== *)

Section MonadFacts.

Variable rt : Runtime.

Lemma bind_ok {A B : Type} (m : M rt A) (k : A -> M rt B) g b g' :
  bind m k g = (Ok b, g') ->
  exists a g1, m g = (Ok a, g1) /\ k a g1 = (Ok b, g').
Proof.
  unfold bind. destruct (m g) as [[a | e] g1]; intros H.
  - exists a, g1. split; [reflexivity | exact H].
  - discriminate H.
Qed.

Lemma lift_ok {A : Type} (r : result A) (g g' : globals rt) a :
  lift r g = (Ok a, g') -> r = Ok a /\ g' = g.
Proof. unfold lift. intros H. injection H as -> ->. split; reflexivity. Qed.

Lemma ret_ok {A : Type} (x a : A) (g g' : globals rt) :
  ret x g = (Ok a, g') -> a = x /\ g' = g.
Proof. unfold ret. intros H. injection H as -> ->. split; reflexivity. Qed.

Lemma read_ok {A : Type} (f : globals rt -> A) g g' a :
  read f g = (Ok a, g') -> a = f g /\ g' = g.
Proof. unfold read. intros H. injection H as <- <-. split; reflexivity. Qed.

Lemma write_ok (f : globals rt -> globals rt) g g' u :
  write f g = (Ok u, g') -> u = tt /\ g' = f g.
Proof. unfold write. intros H. injection H as <- <-. split; reflexivity. Qed.

Lemma the_model_ok (g g' : globals rt) m :
  the_model g = (Ok m, g') -> model g = Some m /\ g' = g.
Proof.
  unfold the_model. destruct (model g); intros H; [| discriminate H].
  injection H as -> ->. split; reflexivity.
Qed.

Lemma the_processor_ok (g g' : globals rt) p :
  the_processor g = (Ok p, g') -> processor g = Some p /\ g' = g.
Proof.
  unfold the_processor. destruct (processor g); intros H; [| discriminate H].
  injection H as -> ->. split; reflexivity.
Qed.

(** ** Computations that do not write *)

Lemma read_only_ret {A : Type} (a : A) : read_only (ret (rt := rt) a).
Proof. intros g. reflexivity. Qed.

Lemma read_only_lift {A : Type} (r : result A) : read_only (lift (rt := rt) r).
Proof. intros g. reflexivity. Qed.

Lemma read_only_read {A : Type} (f : globals rt -> A) : read_only (read f).
Proof. intros g. reflexivity. Qed.

Lemma read_only_the_model : read_only (@the_model rt).
Proof. intros g. unfold the_model. destruct (model g); reflexivity. Qed.

Lemma read_only_the_processor : read_only (@the_processor rt).
Proof. intros g. unfold the_processor. destruct (processor g); reflexivity. Qed.

Lemma read_only_bind {A B : Type} (m : M rt A) (k : A -> M rt B) :
  read_only m -> (forall a, read_only (k a)) -> read_only (bind m k).
Proof.
  intros Hm Hk g. unfold bind.
  specialize (Hm g). destruct (m g) as [[a | e] g1]; simpl in Hm; subst g1.
  - apply Hk.
  - reflexivity.
Qed.

Lemma read_only_try_except {A : Type} (m : M rt A) (h : exn -> M rt A) :
  read_only m -> (forall e, read_only (h e)) -> read_only (try_except m h).
Proof.
  intros Hm Hh g. unfold try_except.
  specialize (Hm g). destruct (m g) as [[a | e] g1]; simpl in Hm; subst g1.
  - reflexivity.
  - apply Hh.
Qed.

Lemma read_only_for_each {A B : Type} (f : A -> M rt B) (l : list A) :
  (forall a, read_only (f a)) -> read_only (for_each f l).
Proof.
  intros Hf. induction l as [| x xs IH]; simpl.
  - apply read_only_ret.
  - apply read_only_bind; [apply Hf |].
    intros y. apply read_only_bind; [exact IH |].
    intros ys. apply read_only_ret.
Qed.

End MonadFacts.

Create HintDb frame.
#[local] Hint Resolve read_only_ret read_only_lift read_only_read
  read_only_the_model read_only_the_processor : frame.

Ltac frame_step :=
  first [ apply read_only_bind; [| intro]
        | apply read_only_try_except; [| intro]
        | apply read_only_for_each; intro
        | solve [auto with frame] ].

(** One [x <- m ;; ...] of a run that ended without an exception. *)
Ltac ok_step H :=
  let a := fresh "a" in
  let g1 := fresh "g" in
  let E := fresh "E" in
  apply bind_ok in H as (a & g1 & E & H);
  lazymatch type of E with
  | lift _ _ = _ => apply lift_ok in E as [E ->]
  | read _ _ = _ => apply read_ok in E as [-> ->]
  | the_model _ = _ => apply the_model_ok in E as [E ->]
  | the_processor _ = _ => apply the_processor_ok in E as [E ->]
  | ret _ _ = _ => apply ret_ok in E as [-> ->]
  | write _ _ = _ => apply write_ok in E as [_ ->]
  end.

(* ================================================================== *)
(** * Runs of [handler] *)
(* ================================================================== *)

Section HandlerFacts.

Variable rt : Runtime.

Lemma py_index_ok {A : Type} (l : list A) i x :
  py_index l i = Ok x -> nth_error l i = Some x.
Proof.
  unfold py_index. destruct (nth_error l i); intros H; [| discriminate H].
  injection H as ->. reflexivity.
Qed.

Lemma py_index_in_range {A : Type} (l : list A) i :
  i < length l -> exists x, py_index l i = Ok x.
Proof.
  intros H. unfold py_index.
  destruct (nth_error l i) as [x |] eqn:E.
  - exists x. reflexivity.
  - apply nth_error_None in E. lia.
Qed.

Lemma build_entry_ok probs idx (g : globals rt) r g' :
  build_entry probs idx g = (Ok r, g') ->
  entry_at (labels g) probs idx r /\ g' = g.
Proof.
  unfold build_entry. intros H.
  do 3 ok_step H. apply ret_ok in H as [-> ->].
  split; [| reflexivity]. split; simpl.
  - now apply py_index_ok.
  - eexists. split; [apply py_index_ok; eassumption | reflexivity].
Qed.

Lemma comprehension_ok probs idxs : forall (g : globals rt) rs g',
  for_each (build_entry probs) idxs g = (Ok rs, g') ->
  Forall2 (entry_at (labels g) probs) idxs rs /\ g' = g.
Proof.
  induction idxs as [| idx idxs IH]; simpl; intros g rs g' H.
  - apply ret_ok in H as [-> ->]. split; [constructor | reflexivity].
  - apply bind_ok in H as (r & g1 & E1 & H).
    apply build_entry_ok in E1 as [E1 ->].
    apply bind_ok in H as (rs' & g2 & E2 & H).
    apply IH in E2 as [E2 ->].
    apply ret_ok in H as [-> ->].
    split; [constructor; assumption | reflexivity].
Qed.

Lemma comprehension_total probs idxs (g : globals rt) :
  Forall (fun idx => idx < length (labels g) /\ idx < length probs) idxs ->
  exists rs, for_each (build_entry probs) idxs g = (Ok rs, g).
Proof.
  induction 1 as [| idx idxs [Hl Hp] _ [rs IH]]; simpl.
  - exists []. reflexivity.
  - destruct (py_index_in_range _ Hl) as [l El].
    destruct (py_index_in_range _ Hp) as [p Ep].
    exists ({| label := l; score := py_round p 4 |} :: rs).
    unfold bind at 1. unfold build_entry at 1.
    unfold bind, read, lift, ret. rewrite El, Ep.
    fold (bind (A := list entry) (B := list entry) (rt := rt)).
    unfold bind. rewrite IH. reflexivity.
Qed.

(** A run of the [try] block that returns went through every step. *)
Lemma handler_body_ok event g rs g' :
  handler_body rt event g = (Ok rs, g') ->
  exists probs,
    forward g event probs /\
    Forall2 (entry_at (labels g) probs)
            (firstn 5 (argsort_descending rt probs)) rs /\
    g' = g.
Proof.
  unfold handler_body. intros H.
  do 14 ok_step H.
  change (for_each (build_entry (rt := rt) a11)
            (firstn 5 (argsort_descending rt a11)) g = (Ok rs, g')) in H.
  apply comprehension_ok in H as [H ->].
  rewrite E6 in E9. injection E9 as <-.
  exists a11. split; [| split; [exact H | reflexivity]].
  unfold forward. do 11 eexists.
  repeat (split; [eassumption |]). eassumption.
Qed.

End HandlerFacts.

Section ListFacts.

Lemma Forall2_nth_error_r {A B : Type} (P : A -> B -> Prop) l1 l2 :
  Forall2 P l1 l2 ->
  forall i b, nth_error l2 i = Some b ->
              exists a, nth_error l1 i = Some a /\ P a b.
Proof.
  induction 1 as [| a b l1 l2 Hab _ IH]; intros i y Hy.
  - destruct i; discriminate Hy.
  - destruct i as [| i]; simpl in *.
    + injection Hy as <-. exists a. split; [reflexivity | exact Hab].
    + apply IH. exact Hy.
Qed.

Lemma StronglySorted_nth_error {A : Type} (R : A -> A -> Prop) l :
  StronglySorted R l ->
  forall i j a b, i < j -> nth_error l i = Some a -> nth_error l j = Some b ->
                  R a b.
Proof.
  induction 1 as [| x l _ IH Hx]; intros i j a b Hij Ha Hb.
  - destruct i; discriminate Ha.
  - destruct j as [| j]; [lia |]. simpl in Hb.
    destruct i as [| i]; simpl in Ha.
    + injection Ha as <-.
      rewrite Forall_forall in Hx. apply Hx.
      eapply nth_error_In. exact Hb.
    + eapply IH; [| exact Ha | exact Hb]. lia.
Qed.

Lemma firstn_In {A : Type} (n : nat) (l : list A) x :
  In x (firstn n l) -> In x l.
Proof.
  intros H. rewrite <- (firstn_skipn n l). apply in_or_app. now left.
Qed.

Lemma StronglySorted_firstn {A : Type} (R : A -> A -> Prop) n : forall l,
  StronglySorted R l -> StronglySorted R (firstn n l).
Proof.
  induction n as [| n IH]; intros l H; simpl.
  - constructor.
  - destruct H as [| x l Hl Hx]; [constructor |].
    constructor; [apply IH; exact Hl |].
    rewrite Forall_forall in *. intros y Hy. apply Hx.
    eapply firstn_In. exact Hy.
Qed.

Lemma nth_error_nth_Q (v : list Q) i p :
  nth_error v i = Some p -> nth i v 0%Q = p.
Proof. intros H. now apply nth_error_nth. Qed.

End ListFacts.

Section HandlerRuns.

Variable rt : Runtime.

(** [handler] is its [try] block with the exception turned into the
    error object. *)
Lemma handler_unfold event (g : globals rt) :
  handler rt event g =
  match handler_body rt event g with
  | (Ok rs, g') => (Ok (Results rs), g')
  | (Raise e, g') => (Ok (ErrorObj (exn_str rt e)), g')
  end.
Proof.
  unfold handler, try_except, bind, ret.
  destruct (handler_body rt event g) as [[rs | e] g']; reflexivity.
Qed.

Lemma handler_body_read_only event : read_only (handler_body rt event).
Proof. unfold handler_body. repeat frame_step. Qed.

Lemma handler_read_only event : read_only (handler rt event).
Proof.
  unfold handler. apply read_only_try_except.
  - apply read_only_bind; [apply handler_body_read_only |].
    intros rs. apply read_only_ret.
  - intros e. apply read_only_ret.
Qed.

Lemma handler_results event (g : globals rt) rs :
  fst (handler rt event g) = Ok (Results rs) ->
  handler_body rt event g = (Ok rs, g).
Proof.
  rewrite handler_unfold.
  pose proof (handler_body_read_only event g) as Hg.
  destruct (handler_body rt event g) as [[rs' | e] g']; simpl in *; intros H.
  - injection H as ->. subst g'. reflexivity.
  - discriminate H.
Qed.

(** Every returned list is the comprehension over the first five
    positions of the argsort of the request's probabilities. *)
Lemma handler_success event (g : globals rt) rs :
  fst (handler rt event g) = Ok (Results rs) ->
  exists probs,
    forward g event probs /\
    Forall2 (entry_at (labels g) probs)
            (firstn 5 (argsort_descending rt probs)) rs.
Proof.
  intros H. apply handler_results in H.
  apply handler_body_ok in H as (probs & Hf & Hr & _).
  exists probs. split; assumption.
Qed.

(** The steps of [forward] followed by a comprehension that returns
    make the [try] block return. *)
Lemma handler_body_complete event (g : globals rt) probs rs :
  forward g event probs ->
  for_each (build_entry probs) (firstn 5 (argsort_descending rt probs)) g
    = (Ok rs, g) ->
  handler_body rt event g = (Ok rs, g).
Proof.
  intros (input & image_base64 & image_bytes & img & image & proc & inputs
          & m & device & inputs' & logits
          & H1 & H2 & H3 & H4 & H5 & H6 & H7 & H8 & H9 & H10 & H11 & H12) Hc.
  unfold handler_body, bind, lift, read, the_processor, the_model.
  rewrite H1; cbv beta iota. rewrite H2; cbv beta iota.
  rewrite H3; cbv beta iota. rewrite H4; cbv beta iota.
  rewrite H5; cbv beta iota. rewrite H6; cbv beta iota.
  rewrite H7; cbv beta iota. rewrite H8; cbv beta iota.
  rewrite H9; cbv beta iota. rewrite H10; cbv beta iota.
  rewrite H8; cbv beta iota.
  rewrite H11; cbv beta iota. rewrite H12; cbv beta iota.
  exact Hc.
Qed.

Lemma forward_row event (g : globals rt) probs :
  forward g event probs -> exists row, probs = softmax rt row.
Proof.
  intros (input & image_base64 & image_bytes & img & image & proc & inputs
          & m & device & inputs' & logits & H).
  decompose [and] H. clear H.
  match goal with
  | Hp : py_index _ 0 = Ok probs |- _ => apply py_index_ok in Hp; rename Hp into Hrow
  end.
  destruct logits as [| row rows]; simpl in Hrow; [discriminate Hrow |].
  injection Hrow as <-. exists row. reflexivity.
Qed.

(** Under the shape contracts there is one probability per label. *)
Lemma forward_length event (g : globals rt) probs :
  logits_contract rt ->
  (forall row, length (softmax rt row) = length row) ->
  forward g event probs -> length probs = length (labels g).
Proof.
  intros Hshape Hlen
         (input & image_base64 & image_bytes & img & image & proc & inputs
          & m & device & inputs' & logits & H).
  decompose [and] H. clear H.
  match goal with
  | Hp : py_index _ 0 = Ok probs |- _ => apply py_index_ok in Hp; rename Hp into Hrow
  end.
  match goal with
  | Ha : processor_call _ _ _ _ = _, Hb : Inputs_to _ _ _ = _,
    Hc : model_logits_per_image _ _ _ = _ |- _ =>
      pose proof (Hshape _ _ _ _ _ _ _ _ Ha Hb Hc) as Hrows
  end.
  destruct logits as [| row rows]; simpl in Hrow; [discriminate Hrow |].
  injection Hrow as <-.
  inversion Hrows as [| ? ? Hr _]; subst.
  rewrite Hlen, Hr. apply length_map.
Qed.

End HandlerRuns.

(* ================================================================== *)
(** * The concrete runtime meets the contracts *)
(* ================================================================== *)

Section SimFacts.

Local Open Scope Q_scope.

Lemma insert_desc_perm v i l : Permutation (Sim.insert_desc v i l) (i :: l).
Proof.
  induction l as [| j l IH]; simpl.
  - apply Permutation_refl.
  - destruct (Qle_bool (nth j v 0) (nth i v 0)).
    + apply Permutation_refl.
    + eapply perm_trans; [apply perm_skip; exact IH | apply perm_swap].
Qed.

Lemma insert_desc_sorted v i l :
  descending v l -> descending v (Sim.insert_desc v i l).
Proof.
  unfold descending.
  induction 1 as [| j l Hl IH Hj]; simpl.
  - constructor; constructor.
  - destruct (Qle_bool (nth j v 0) (nth i v 0)) eqn:E.
    + apply Qle_bool_iff in E.
      constructor; [constructor; assumption |].
      constructor; [exact E |].
      rewrite Forall_forall in *. intros k Hk.
      eapply Qle_trans; [apply Hj; exact Hk | exact E].
    + assert (Hlt : nth i v 0 < nth j v 0).
      { apply Qnot_le_lt. intros Hle.
        apply Qle_bool_iff in Hle. congruence. }
      constructor; [exact IH |].
      rewrite Forall_forall in *. intros k Hk.
      apply (Permutation_in _ (insert_desc_perm v i l)) in Hk.
      destruct Hk as [<- | Hk]; [apply Qlt_le_weak; exact Hlt | now apply Hj].
Qed.

Lemma sim_argsort_perm v : Permutation (Sim.argsort v) (seq 0 (length v)).
Proof.
  unfold Sim.argsort.
  induction (seq 0 (length v)) as [| i l IH]; simpl.
  - constructor.
  - eapply perm_trans; [apply insert_desc_perm | apply perm_skip; exact IH].
Qed.

Lemma sim_argsort_sorted v : descending v (Sim.argsort v).
Proof.
  unfold Sim.argsort.
  induction (seq 0 (length v)) as [| i l IH]; simpl.
  - constructor.
  - apply insert_desc_sorted. exact IH.
Qed.

Lemma total_cons w ws : Sim.total (w :: ws) = (Z.pos w + Sim.total ws)%Z.
Proof. reflexivity. Qed.

Lemma total_nonneg ws : (0 <= Sim.total ws)%Z.
Proof.
  induction ws as [| w ws IH]; [reflexivity |]. rewrite total_cons. lia.
Qed.

Lemma total_pos ws : ws <> [] -> (0 < Sim.total ws)%Z.
Proof.
  destruct ws as [| w ws]; [congruence |]. intros _.
  rewrite total_cons. pose proof (total_nonneg ws). lia.
Qed.

Lemma total_ge ws w : In w ws -> (Z.pos w <= Sim.total ws)%Z.
Proof.
  induction ws as [| x ws IH]; [intros [] |].
  rewrite total_cons. pose proof (total_nonneg ws).
  intros [-> | H']; [lia |]. apply IH in H'. lia.
Qed.

Lemma Qsum_over (d : positive) ws :
  Qsum (map (fun w => Qmake (Z.pos w) d) ws) == Qmake (Sim.total ws) d.
Proof.
  induction ws as [| w ws IH].
  - reflexivity.
  - rewrite total_cons. cbn [map Qsum]. rewrite IH.
    unfold Qeq, Qplus. cbn [Qnum Qden]. nia.
Qed.

Lemma sim_softmax_range ws p : In p (Sim.normalise ws) -> 0 <= p <= 1.
Proof.
  unfold Sim.normalise. intros H. apply in_map_iff in H as (w & <- & Hw).
  pose proof (total_ge _ _ Hw) as Hge.
  unfold Qle. simpl. rewrite Z2Pos.id by lia. lia.
Qed.

Lemma sim_softmax_total ws : ws <> [] -> Qsum (Sim.normalise ws) == 1.
Proof.
  intros H. unfold Sim.normalise. rewrite Qsum_over.
  pose proof (total_pos H).
  unfold Qeq. simpl. rewrite Z2Pos.id by lia. lia.
Qed.

Variables (labels_txt : string) (weight : string -> positive).

Lemma sim_argsort_contract :
  argsort_contract (Sim.runtime labels_txt weight).
Proof.
  constructor; simpl; [apply sim_argsort_perm | apply sim_argsort_sorted].
Qed.

Lemma sim_softmax_keeps_length :
  softmax_keeps_length (Sim.runtime labels_txt weight).
Proof. intros row. apply length_map. Qed.

Lemma sim_softmax_in_unit_interval :
  softmax_in_unit_interval (Sim.runtime labels_txt weight).
Proof. intros row p. apply sim_softmax_range. Qed.

Lemma sim_logits_contract :
  logits_contract (Sim.runtime labels_txt weight).
Proof.
  intros proc m texts img inp d inp' rows H1 H2 H3. simpl in *.
  injection H1 as <-. injection H2 as <-. injection H3 as <-.
  constructor; [apply length_map | constructor].
Qed.

End SimFacts.

(* ================================================================== *)
(** * Properties of the worker *)
(* ================================================================== *)

(** A start-up followed by two calls of the handler: the labels are
    loaded, the first job is classified, the second one, which lacks
    the key "input", is answered with an error object. *)
Example sim_worker_run :
  worker Sim.rt5
    (fun h => bind (h Sim.job) (fun _ => bind (h Sim.flat_job) (fun _ => ret tt)))
    (initial_globals Sim.rt5)
  = (Ok tt, Sim.g5)
  /\ handler Sim.rt5 Sim.job Sim.g5 = (Ok (Results Sim.top5), Sim.g5)
  /\ handler Sim.rt5 Sim.flat_job Sim.g5 = (Ok (ErrorObj "'input'"), Sim.g5).
Proof. repeat split; vm_compute; reflexivity. Qed.

(** C2: a run of [handler] that returns a list returns at most five
    entries. *)
Theorem handler_at_most_five (rt : Runtime) event (g : globals rt) rs :
  fst (handler rt event g) = Ok (Results rs) -> length rs <= 5.
Proof.
  intros H. apply handler_success in H as (probs & _ & Hr).
  rewrite <- (Forall2_length Hr). apply firstn_le_length.
Qed.

Lemma handler_at_most_five_witness :
  fst (handler Sim.rt5 Sim.job Sim.g5) = Ok (Results Sim.top5)
  /\ length Sim.top5 <= 5.
Proof.
  split; [vm_compute; reflexivity |].
  apply (@handler_at_most_five Sim.rt5 Sim.job Sim.g5 Sim.top5).
  vm_compute. reflexivity.
Defined.

(** C3: in a returned list the scores, as returned (after rounding),
    never increase: an entry's score is at least the score of every
    later entry. *)
Theorem handler_scores_descending (rt : Runtime) event (g : globals rt) rs :
  argsort_contract rt ->
  fst (handler rt event g) = Ok (Results rs) ->
  forall i j ri rj,
    i < j -> nth_error rs i = Some ri -> nth_error rs j = Some rj ->
    (score rj <= score ri)%Q.
Proof.
  intros Hsort H i j ri rj Hij Hi Hj.
  apply handler_success in H as (probs & _ & Hr).
  destruct (Forall2_nth_error_r Hr _ Hi) as (a & Ha & _ & p & Hp & ->).
  destruct (Forall2_nth_error_r Hr _ Hj) as (b & Hb & _ & q & Hq & ->).
  apply py_round4_mono.
  pose proof (StronglySorted_firstn 5 (argsort_sorted Hsort probs)) as Hs.
  pose proof (StronglySorted_nth_error Hs Hij Ha Hb) as Hab. simpl in Hab.
  rewrite (nth_error_nth_Q _ _ Hp), (nth_error_nth_Q _ _ Hq) in Hab.
  exact Hab.
Qed.

Lemma handler_scores_descending_witness :
  fst (handler Sim.rt5 Sim.job Sim.g5) = Ok (Results Sim.top5)
  /\ (Qmake 1 10000 <= Qmake 9998 10000)%Q.
Proof.
  split; [vm_compute; reflexivity |].
  apply (@handler_scores_descending Sim.rt5 Sim.job Sim.g5 Sim.top5
           (sim_argsort_contract _ _)) with (i := 0) (j := 1)
           (ri := {| label := "cat"; score := Qmake 9998 10000 |})
           (rj := {| label := "dog"; score := Qmake 1 10000 |}).
  - vm_compute. reflexivity.
  - lia.
  - reflexivity.
  - reflexivity.
Defined.

(** C4: every score of a returned list lies in the closed interval
    from 0 to 1, given that every entry of a softmax row does. *)
Theorem handler_scores_in_unit_interval (rt : Runtime) event
    (g : globals rt) rs :
  softmax_in_unit_interval rt ->
  fst (handler rt event g) = Ok (Results rs) ->
  forall r, In r rs -> (0 <= score r <= 1)%Q.
Proof.
  intros Hsm H r Hin.
  apply handler_success in H as (probs & Hf & Hr).
  apply In_nth_error in Hin as [i Hi].
  destruct (Forall2_nth_error_r Hr _ Hi) as (idx & _ & _ & p & Hp & ->).
  apply py_round4_range.
  destruct (forward_row Hf) as [row ->].
  apply (Hsm row). eapply nth_error_In. exact Hp.
Qed.

Lemma handler_scores_in_unit_interval_witness :
  fst (handler Sim.rt5 Sim.job Sim.g5) = Ok (Results Sim.top5)
  /\ (0 <= Qmake 9998 10000 <= 1)%Q.
Proof.
  split; [vm_compute; reflexivity |].
  apply (@handler_scores_in_unit_interval Sim.rt5 Sim.job Sim.g5 Sim.top5
           (@sim_softmax_in_unit_interval _ _))
    with (r := {| label := "cat"; score := Qmake 9998 10000 |}).
  - vm_compute. reflexivity.
  - left. reflexivity.
Defined.

(** C6: [handler] never lets an exception out. Whatever the request and
    the globals, either the [try] block returns a list and [handler]
    returns that list, or a step raises [e] and [handler] returns the
    error object carrying [str(e)]; a list is never turned into an
    error object. *)
Theorem handler_catches_every_exception (rt : Runtime) event
    (g : globals rt) :
  (exists rs, fst (handler_body rt event g) = Ok rs
              /\ fst (handler rt event g) = Ok (Results rs))
  \/ (exists e, fst (handler_body rt event g) = Raise e
                /\ fst (handler rt event g) = Ok (ErrorObj (exn_str rt e))).
Proof.
  rewrite handler_unfold.
  destruct (handler_body rt event g) as [[rs | e] g']; simpl.
  - left. exists rs. split; reflexivity.
  - right. exists e. split; reflexivity.
Qed.

(** C8: no call of [handler] changes the globals, neither on the
    returning nor on the error path; hence the globals are the same
    after any number of calls, and whatever the serverless framework
    does with the handler (as long as it touches the globals through the
    handler only), the globals stay those that the single call of
    [load_model] at start-up left. *)
Theorem globals_never_modified (rt : Runtime) :
  (forall event g, snd (handler rt event g) = g)
  /\ (forall events g,
        fold_left (fun g' event => snd (handler rt event g')) events g = g)
  /\ (forall start : (json -> M rt response) -> M rt unit,
        (forall h, (forall event, read_only (h event)) -> read_only (start h)) ->
        snd (worker rt start (initial_globals rt))
        = snd (load_model rt (initial_globals rt))).
Proof.
  split; [| split].
  - intros event. apply handler_read_only.
  - intros events. induction events as [| event events IH]; intros g.
    + reflexivity.
    + cbn [fold_left]. rewrite (@handler_read_only rt event g). apply IH.
  - intros start Hstart. unfold worker, bind.
    destruct (load_model rt (initial_globals rt)) as [[[] | e] g1]; simpl.
    + apply Hstart. intros event. apply handler_read_only.
    + reflexivity.
Qed.

Lemma globals_never_modified_witness :
  let start := fun h : json -> M Sim.rt5 response =>
                 bind (for_each h [Sim.job; Sim.flat_job]) (fun _ => ret tt) in
  (forall h, (forall event, read_only (h event)) -> read_only (start h))
  /\ snd (worker Sim.rt5 start (initial_globals Sim.rt5))
     = snd (load_model Sim.rt5 (initial_globals Sim.rt5)).
Proof.
  cbv zeta.
  assert (Hstart : forall h : json -> M Sim.rt5 response,
             (forall event, read_only (h event)) ->
             read_only (bind (for_each h [Sim.job; Sim.flat_job])
                          (fun _ => ret tt))).
  { intros h Hh. apply read_only_bind.
    - apply read_only_for_each. exact Hh.
    - intros rs. apply read_only_ret. }
  split; [exact Hstart |].
  exact (proj2 (proj2 (globals_never_modified Sim.rt5)) _ Hstart).
Defined.

Section TopFive.

Lemma StronglySorted_app_cross {A : Type} (R : A -> A -> Prop) l1 : forall l2,
  StronglySorted R (l1 ++ l2) ->
  forall a b, In a l1 -> In b l2 -> R a b.
Proof.
  induction l1 as [| x l1 IH]; intros l2 H a b Ha Hb; [destruct Ha |].
  simpl in H. inversion H as [| ? ? Hl Hx]; subst.
  destruct Ha as [<- | Ha].
  - rewrite Forall_forall in Hx. apply Hx. apply in_or_app. now right.
  - eapply IH; eassumption.
Qed.

Lemma firstn_or_skipn {A : Type} (n : nat) (l : list A) x :
  In x l -> In x (firstn n l) \/ In x (skipn n l).
Proof.
  intros H. rewrite <- (firstn_skipn n l) in H.
  apply in_app_or in H. exact H.
Qed.

Lemma nth_error_firstn_Some {A : Type} (n : nat) (l : list A) i x :
  nth_error (firstn n l) i = Some x -> nth_error l i = Some x.
Proof.
  revert l i. induction n as [| n IH]; intros l i H.
  - destruct i; discriminate H.
  - destruct l as [| y l]; [destruct i; discriminate H |].
    destruct i as [| i]; simpl in *; [exact H | now apply IH].
Qed.

End TopFive.

(** The entries built over the first five positions of the argsort of a
    row that has one probability per label are the top five. *)
Lemma top5_of_entries (rt : Runtime) event (g : globals rt) probs rs :
  argsort_contract rt ->
  length probs = length (labels g) ->
  forward g event probs ->
  Forall2 (entry_at (labels g) probs)
          (firstn 5 (argsort_descending rt probs)) rs ->
  top5_of g event rs.
Proof.
  intros Hsort Hlen Hf Hr.
  exists probs. split; [exact Hf |]. split; [exact Hlen |].
  cbv zeta.
  pose proof (argsort_perm Hsort probs) as Hperm.
  pose proof (argsort_sorted Hsort probs) as Hdesc.
  split; [rewrite <- Hlen; exact Hperm |].
  split; [exact Hdesc |].
  split; [| split].
  - rewrite <- (Forall2_length Hr), length_firstn.
    rewrite (Permutation_length Hperm), length_seq, Hlen. reflexivity.
  - intros i r Hi.
    destruct (Forall2_nth_error_r Hr _ Hi) as (idx & Hidx & Hl & p & Hp & Hs).
    exists idx, p. split; [| split; [| split]]; try assumption.
    eapply nth_error_firstn_Some. exact Hidx.
  - intros k idx Hk Hout Hin.
    assert (Hk' : In k (argsort_descending rt probs)).
    { apply (Permutation_in _ (Permutation_sym Hperm)).
      apply in_seq. lia. }
    destruct (firstn_or_skipn 5 _ _ Hk') as [Hfst | Hskip]; [contradiction |].
    unfold descending in Hdesc.
    rewrite <- (firstn_skipn 5 (argsort_descending rt probs)) in Hdesc.
    exact (StronglySorted_app_cross _ _ Hdesc _ _ Hin Hskip).
Qed.

(** C1: a returned list is the top five of the softmax probabilities of
    the request (all labels when there are fewer than five): its i-th
    entry carries the label found in the global label list at the
    position of the i-th largest probability. Of torch it is assumed
    that argsort orders the positions, that a softmax row is as long as
    the logit row and that the model gives one logit per prompt. *)
Theorem handler_returns_top5 (rt : Runtime) event (g : globals rt) rs :
  argsort_contract rt ->
  softmax_keeps_length rt ->
  logits_contract rt ->
  fst (handler rt event g) = Ok (Results rs) ->
  top5_of g event rs.
Proof.
  intros Hsort Hsm Hshape H.
  apply handler_success in H as (probs & Hf & Hr).
  pose proof (forward_length Hshape Hsm Hf) as Hlen.
  exact (top5_of_entries Hsort Hlen Hf Hr).
Qed.

Lemma handler_returns_top5_witness :
  fst (handler Sim.rt5 Sim.job Sim.g5) = Ok (Results Sim.top5)
  /\ top5_of Sim.g5 Sim.job Sim.top5.
Proof.
  split; [vm_compute; reflexivity |].
  apply (@handler_returns_top5 Sim.rt5 Sim.job Sim.g5 Sim.top5
           (sim_argsort_contract _ _) (@sim_softmax_keeps_length _ _)
           (@sim_logits_contract _ _)).
  vm_compute. reflexivity.
Defined.

Section Sums.

Local Open Scope Q_scope.

Lemma Qsum_app l1 l2 : Qsum (l1 ++ l2) == Qsum l1 + Qsum l2.
Proof.
  induction l1 as [| x l1 IH]; simpl; [lra |]. rewrite IH. lra.
Qed.

Lemma Qsum_nonneg l : Forall (fun x => 0 <= x) l -> 0 <= Qsum l.
Proof. induction 1; simpl; lra. Qed.

Lemma Qsum_perm l1 l2 : Permutation l1 l2 -> Qsum l1 == Qsum l2.
Proof. induction 1; simpl; lra. Qed.

Lemma map_nth_seq (v : list Q) :
  map (fun i => nth i v 0) (seq 0 (length v)) = v.
Proof.
  induction v as [| x v IH]; [reflexivity |].
  cbn [length]. rewrite <- cons_seq, <- seq_shift. cbn [map nth].
  rewrite map_map. cbn [nth]. f_equal. exact IH.
Qed.

Lemma nth_nonneg (v : list Q) i :
  Forall (fun x => 0 <= x) v -> 0 <= nth i v 0.
Proof.
  intros H. destruct (Nat.lt_ge_cases i (length v)) as [Hlt | Hge].
  - rewrite Forall_forall in H. apply H. now apply nth_In.
  - rewrite nth_overflow by exact Hge. lra.
Qed.

(** The probabilities at some of the positions add up to at most the
    whole row. *)
Lemma selected_sum_le (v : list Q) idxs n :
  Forall (fun x => 0 <= x) v ->
  Permutation idxs (seq 0 (length v)) ->
  Qsum (map (fun i => nth i v 0) (firstn n idxs)) <= Qsum v.
Proof.
  intros Hv Hperm.
  set (f := fun i => nth i v 0).
  assert (Hall : Qsum (map f idxs) == Qsum v).
  { rewrite (Qsum_perm (Permutation_map f Hperm)).
    unfold f. rewrite map_nth_seq. reflexivity. }
  assert (Hsplit : Qsum (map f idxs)
                   == Qsum (map f (firstn n idxs)) + Qsum (map f (skipn n idxs))).
  { rewrite <- Qsum_app, <- map_app, firstn_skipn. reflexivity. }
  assert (Hrest : 0 <= Qsum (map f (skipn n idxs))).
  { apply Qsum_nonneg. apply Forall_map, Forall_forall.
    intros i _. unfold f. now apply nth_nonneg. }
  lra.
Qed.

(** The rounded scores add up to a whole number of ten-thousandths
    that exceeds the probabilities by at most half a unit each. *)
Lemma rounded_sum (ps : list Q) :
  exists S : Z,
    Qsum (map (fun p => py_round p 4) ps) == Qmake S 10000
    /\ inject_Z S
       <= 10000 * Qsum ps + inject_Z (Z.of_nat (length ps)) * (1 # 2).
Proof.
  induction ps as [| p ps (S & HS & Hb)].
  - exists 0%Z. split; [reflexivity |].
    cbn [Qsum length]. change (inject_Z (Z.of_nat 0)) with 0.
    change (inject_Z 0) with 0. lra.
  - exists (round_half_even (p * 10000) + S)%Z. split.
    + cbn [map Qsum]. rewrite HS, py_round4_unfold.
      rewrite !Qmake_10000, inject_Z_plus. field.
    + cbn [Qsum length]. rewrite Nat2Z.inj_succ, <- Z.add_1_r.
      rewrite !inject_Z_plus.
      destruct (round_half_even_near (p * 10000)) as [H1 _].
      change (inject_Z 1) with 1. lra.
Qed.

Lemma entries_scores (ls : list string) (probs : list Q) idxs rs :
  Forall2 (entry_at ls probs) idxs rs ->
  map score rs = map (fun p => py_round p 4)
                   (map (fun i => nth i probs 0) idxs).
Proof.
  induction 1 as [| idx r idxs rs (_ & p & Hp & Hs) _ IH]; [reflexivity |].
  cbn [map]. rewrite IH, Hs, (nth_error_nth_Q _ _ Hp). reflexivity.
Qed.

End Sums.

Lemma sim_forward5 : forward Sim.g5 Sim.job Sim.probs5.
Proof.
  unfold forward.
  exists (JObj [("image_base64"%string, JStr "aGk=")]), (JStr "aGk=").
  exists (list_byte_of_string "aGk="), (list_byte_of_string "aGk=").
  exists (list_byte_of_string "aGk="), tt.
  exists (map (fun l => ("a photo of " ++ l)%string) (labels Sim.g5)).
  exists tt, tt.
  exists (map (fun l => ("a photo of " ++ l)%string) (labels Sim.g5)).
  exists [map Sim.skewed
            (map (fun l => ("a photo of " ++ l)%string) (labels Sim.g5))].
  repeat split; vm_compute; reflexivity.
Qed.

(** C5, as stated, fails: five labels with probabilities 0.99976 and
    four times 0.00006 add up to exactly 1, yet the returned scores
    0.9998 and four times 0.0001 add up to 1.0002. *)
Lemma rounded_scores_exceed_one :
  softmax_in_unit_interval Sim.rt5
  /\ argsort_contract Sim.rt5
  /\ forward Sim.g5 Sim.job Sim.probs5
  /\ (Qsum Sim.probs5 == 1)%Q
  /\ fst (handler Sim.rt5 Sim.job Sim.g5) = Ok (Results Sim.top5)
  /\ ~ (score_sum Sim.top5 <= 1)%Q.
Proof.
  split; [apply sim_softmax_in_unit_interval |].
  split; [apply sim_argsort_contract |].
  split; [exact sim_forward5 |].
  split; [vm_compute; reflexivity |].
  split; [vm_compute; reflexivity |].
  vm_compute. intros H. apply H. reflexivity.
Qed.

(** C5, amended: the returned (rounded) scores add up to at most the
    probabilities of the returned entries plus 0.00005 for each entry;
    these probabilities add up to at most the whole softmax row of the
    request; so the scores add up to at most the row plus 0.00025, and
    to at most 1.0002 when the row adds up to at most 1. *)
Theorem handler_score_sum_bound (rt : Runtime) event (g : globals rt) rs :
  argsort_contract rt ->
  softmax_in_unit_interval rt ->
  fst (handler rt event g) = Ok (Results rs) ->
  exists probs,
    forward g event probs
    /\ (let selected :=
          map (fun idx => nth idx probs 0%Q)
              (firstn 5 (argsort_descending rt probs)) in
        map score rs = map (fun p => py_round p 4) selected
        /\ (score_sum rs
            <= Qsum selected
               + inject_Z (Z.of_nat (length rs)) * (1 # 20000))%Q
        /\ (Qsum selected <= Qsum probs)%Q)
    /\ (score_sum rs <= Qsum probs + (5 # 20000))%Q
    /\ ((Qsum probs <= 1)%Q -> (score_sum rs <= Qmake 10002 10000)%Q).
Proof.
  intros Hsort Hsm H.
  apply handler_success in H as (probs & Hf & Hr).
  exists probs. split; [exact Hf |].
  cbv zeta.
  set (idxs := firstn 5 (argsort_descending rt probs)) in *.
  set (ps := map (fun i => nth i probs 0%Q) idxs).
  pose proof (entries_scores Hr) as Hscores. fold ps in Hscores.
  assert (Hsel : (Qsum ps <= Qsum probs)%Q).
  { destruct (forward_row Hf) as [row ->].
    apply selected_sum_le; [| apply (argsort_perm Hsort)].
    apply Forall_forall. intros p Hp.
    apply (Hsm row p Hp). }
  assert (Hlen : length ps = length rs).
  { unfold ps. rewrite length_map. exact (Forall2_length Hr). }
  assert (Hn : (Z.of_nat (length rs) <= 5)%Z).
  { rewrite <- Hlen. unfold ps. rewrite length_map.
    unfold idxs. pose proof (firstn_le_length 5 (argsort_descending rt probs)).
    lia. }
  assert (HnQ : (inject_Z (Z.of_nat (length rs)) <= 5)%Q).
  { change 5%Q with (inject_Z 5). rewrite <- Zle_Qle. exact Hn. }
  destruct (rounded_sum ps) as (S & HS & Hb). rewrite Hlen in Hb.
  assert (Hsum : (score_sum rs == inject_Z S / 10000)%Q).
  { unfold score_sum. rewrite Hscores, HS. apply Qmake_10000. }
  assert (Hnear : (score_sum rs
                   <= Qsum ps + inject_Z (Z.of_nat (length rs)) * (1 # 20000))%Q).
  { rewrite Hsum. apply Qle_shift_div_r; lra. }
  split; [split; [exact Hscores | split; [exact Hnear | exact Hsel]] |].
  split; [lra |].
  intros Hone.
  assert (HSQ : (inject_Z S <= 10002 + (1 # 2))%Q) by lra.
  assert (HSZ : (S <= 10002)%Z).
  { unfold Qle in HSQ. simpl in HSQ. lia. }
  unfold score_sum. rewrite Hscores, HS.
  unfold Qle. simpl. lia.
Qed.

Lemma handler_score_sum_bound_witness :
  fst (handler Sim.rt5 Sim.job Sim.g5) = Ok (Results Sim.top5)
  /\ exists probs,
       forward Sim.g5 Sim.job probs
       /\ (let selected :=
             map (fun idx => nth idx probs 0%Q)
                 (firstn 5 (argsort_descending Sim.rt5 probs)) in
           map score Sim.top5 = map (fun p => py_round p 4) selected
           /\ (score_sum Sim.top5
               <= Qsum selected
                  + inject_Z (Z.of_nat (length Sim.top5)) * (1 # 20000))%Q
           /\ (Qsum selected <= Qsum probs)%Q)
       /\ (score_sum Sim.top5 <= Qsum probs + (5 # 20000))%Q
       /\ ((Qsum probs <= 1)%Q -> (score_sum Sim.top5 <= Qmake 10002 10000)%Q).
Proof.
  split; [vm_compute; reflexivity |].
  apply (@handler_score_sum_bound Sim.rt5 Sim.job Sim.g5 Sim.top5
           (sim_argsort_contract _ _) (@sim_softmax_in_unit_interval _ _)).
  vm_compute. reflexivity.
Defined.

Lemma sim_close_forward : forward Sim.g_close Sim.job Sim.probs_close.
Proof.
  unfold forward.
  exists (JObj [("image_base64"%string, JStr "aGk=")]), (JStr "aGk=").
  exists (list_byte_of_string "aGk="), (list_byte_of_string "aGk=").
  exists (list_byte_of_string "aGk="), tt.
  exists (map (fun l => ("a photo of " ++ l)%string) (labels Sim.g_close)).
  exists tt, tt.
  exists (map (fun l => ("a photo of " ++ l)%string) (labels Sim.g_close)).
  exists [map Sim.close_pair
            (map (fun l => ("a photo of " ++ l)%string) (labels Sim.g_close))].
  repeat split; vm_compute; reflexivity.
Qed.

(** C10: every returned score is the probability of its label rounded
    to four decimal places, hence a whole number of ten-thousandths at
    most 0.00005 away from the probability; and rounding merges nearby
    probabilities: in the run below 0.00007 and 0.00006 are both
    returned as 0.0001. *)
Theorem handler_scores_are_rounded (rt : Runtime) event (g : globals rt) rs :
  fst (handler rt event g) = Ok (Results rs) ->
  (exists probs,
     forward g event probs /\
     forall i r, nth_error rs i = Some r ->
       exists idx p,
         nth_error (firstn 5 (argsort_descending rt probs)) i = Some idx /\
         nth_error probs idx = Some p /\
         score r = py_round p 4 /\
         score r = Qmake (round_half_even (p * 10000)) 10000 /\
         (p - (1 # 20000) <= score r <= p + (1 # 20000))%Q)
  /\ (exists r1 r2 p1 p2,
        fst (handler Sim.rt_close Sim.job Sim.g_close)
          = Ok (Results Sim.top5_close) /\
        forward Sim.g_close Sim.job Sim.probs_close /\
        nth_error Sim.top5_close 1 = Some r1 /\
        nth_error Sim.top5_close 2 = Some r2 /\
        nth_error Sim.probs_close 1 = Some p1 /\
        nth_error Sim.probs_close 2 = Some p2 /\
        score r1 = py_round p1 4 /\ score r2 = py_round p2 4 /\
        ~ (p1 == p2)%Q /\ (Qabs (p1 - p2) < 5 # 100000)%Q /\
        score r1 = score r2).
Proof.
  intros H. split.
  - apply handler_success in H as (probs & Hf & Hr).
    exists probs. split; [exact Hf |].
    intros i r Hi.
    destruct (Forall2_nth_error_r Hr _ Hi) as (idx & Hidx & _ & p & Hp & Hs).
    exists idx, p.
    split; [exact Hidx |]. split; [exact Hp |]. split; [exact Hs |].
    rewrite Hs. split; [apply py_round4_unfold | apply py_round4_near].
  - exists {| label := "dog"; score := Qmake 1 10000 |},
           {| label := "bird"; score := Qmake 1 10000 |},
           (Qmake 7 100000), (Qmake 6 100000).
    split; [vm_compute; reflexivity |].
    split; [exact sim_close_forward |].
    repeat (split; [reflexivity |]).
    split; [vm_compute; discriminate |].
    split; reflexivity.
Qed.

Lemma handler_scores_are_rounded_witness :
  fst (handler Sim.rt5 Sim.job Sim.g5) = Ok (Results Sim.top5)
  /\ exists probs,
       forward Sim.g5 Sim.job probs /\
       forall i r, nth_error Sim.top5 i = Some r ->
         exists idx p,
           nth_error (firstn 5 (argsort_descending Sim.rt5 probs)) i = Some idx /\
           nth_error probs idx = Some p /\
           score r = py_round p 4 /\
           score r = Qmake (round_half_even (p * 10000)) 10000 /\
           (p - (1 # 20000) <= score r <= p + (1 # 20000))%Q.
Proof.
  split; [vm_compute; reflexivity |].
  apply (@handler_scores_are_rounded Sim.rt5 Sim.job Sim.g5 Sim.top5).
  vm_compute. reflexivity.
Defined.

(** A job without the key "input" is answered with an error object,
    whatever the libraries do. *)
Lemma handler_missing_input (rt : Runtime) fields (g : globals rt) :
  assoc "input" fields = None ->
  handler rt (JObj fields) g
  = (Ok (ErrorObj (exn_str rt (KeyError "input"))), g).
Proof.
  intros H. rewrite handler_unfold.
  unfold handler_body, bind, lift. simpl. rewrite H. reflexivity.
Qed.

(** A request of the right shape whose "image_base64" value
    [base64.b64decode] rejects is answered with the error object of that
    failure; no later step runs and the globals are left alone. *)
Lemma handler_bad_base64 (rt : Runtime) event input s e (g : globals rt) :
  py_getitem event "input" = Ok input ->
  py_getitem input "image_base64" = Ok s ->
  b64decode rt s = Raise e ->
  handler rt event g = (Ok (ErrorObj (exn_str rt e)), g).
Proof.
  intros H1 H2 H3. rewrite handler_unfold.
  unfold handler_body, bind, lift.
  rewrite H1; cbv beta iota. rewrite H2; cbv beta iota.
  rewrite H3; cbv beta iota. reflexivity.
Qed.

(** Bytes that PIL cannot open as an image are answered with the error
    object of that failure; processor and model are not reached. *)
Lemma handler_bad_image (rt : Runtime) event input s bytes e (g : globals rt) :
  py_getitem event "input" = Ok input ->
  py_getitem input "image_base64" = Ok s ->
  b64decode rt s = Ok bytes ->
  Image_open rt bytes = Raise e ->
  handler rt event g = (Ok (ErrorObj (exn_str rt e)), g).
Proof.
  intros H1 H2 H3 H4. rewrite handler_unfold.
  unfold handler_body, bind, lift.
  rewrite H1; cbv beta iota. rewrite H2; cbv beta iota.
  rewrite H3; cbv beta iota. rewrite H4; cbv beta iota. reflexivity.
Qed.

(** C7: the request is the flat one-field object of the docstring,
    [{"image_base64": s}], which the framework delivers under the key
    "input" of the job. When [s] is a valid base64-encoded image
    ([b64decode], [Image.open] and [convert] go through on it) and
    processor and model do not raise, [handler] accepts the job and
    classifies it: it returns the top five of the request, one entry per
    label up to five, and no error object. *)
Theorem handler_accepts_flat_input (rt : Runtime) event
    (g : globals rt) s probs :
  argsort_contract rt ->
  softmax_keeps_length rt ->
  logits_contract rt ->
  py_getitem event "input" = Ok (JObj [("image_base64"%string, JStr s)]) ->
  forward g event probs ->
  exists rs,
    handler rt event g = (Ok (Results rs), g)
    /\ top5_of g event rs
    /\ length rs = Nat.min 5 (length (labels g)).
Proof.
  intros Hsort Hsm Hshape _ Hf.
  pose proof (forward_length Hshape Hsm Hf) as Hlen.
  pose proof (argsort_perm Hsort probs) as Hperm.
  destruct (@comprehension_total rt probs
              (firstn 5 (argsort_descending rt probs)) g) as [rs Hrs].
  { apply Forall_forall. intros idx Hin.
    apply firstn_In in Hin.
    apply (Permutation_in _ Hperm) in Hin. apply in_seq in Hin. lia. }
  exists rs. split.
  - rewrite handler_unfold, (handler_body_complete Hf Hrs). reflexivity.
  - apply comprehension_ok in Hrs as [Hr _]. split.
    + exact (top5_of_entries Hsort Hlen Hf Hr).
    + rewrite <- (Forall2_length Hr), length_firstn.
      rewrite (Permutation_length Hperm), length_seq, Hlen. reflexivity.
Qed.

Lemma handler_accepts_flat_input_witness :
  py_getitem Sim.job "input" = Ok (JObj [("image_base64"%string, JStr "aGk=")])
  /\ forward Sim.g_close Sim.job Sim.probs_close
  /\ exists rs,
       handler Sim.rt_close Sim.job Sim.g_close = (Ok (Results rs), Sim.g_close)
       /\ top5_of Sim.g_close Sim.job rs
       /\ length rs = Nat.min 5 (length (labels Sim.g_close)).
Proof.
  split; [reflexivity |].
  split; [exact sim_close_forward |].
  apply (@handler_accepts_flat_input Sim.rt_close Sim.job Sim.g_close
           "aGk=" Sim.probs_close (sim_argsort_contract _ _)
           (@sim_softmax_keeps_length _ _) (@sim_logits_contract _ _)
           eq_refl sim_close_forward).
Defined.

(* ================================================================== *)
(** * The label file *)
(* ================================================================== *)

Section Strings.

Import PyStr.

Lemma truthy_true s : truthy s = true <-> s <> EmptyString.
Proof.
  destruct s; simpl; split; intros H; try congruence; discriminate.
Qed.

Lemma rstrip_keeps_nonspace c s :
  isspace c = false -> truthy (rstrip (String c s)) = true.
Proof.
  intros H. simpl. destruct (rstrip s); [rewrite H |]; reflexivity.
Qed.

(** Stripping leaves something exactly when the line has a character
    that is not white space. *)
Lemma truthy_strip s : truthy (strip s) = has_nonspace s.
Proof.
  unfold strip, has_nonspace.
  induction s as [| c s IH]; [reflexivity |].
  cbn [lstrip list_ascii_of_string existsb].
  destruct (isspace c) eqn:E; cbn [negb orb].
  - exact IH.
  - apply rstrip_keeps_nonspace. exact E.
Qed.

Lemma stripped_lines_nonempty (lines : list string) :
  Forall (fun l => l <> EmptyString)
    (map strip (filter (fun line => truthy (strip line)) lines)).
Proof.
  apply Forall_map, Forall_forall. intros line Hin.
  apply filter_In in Hin as [_ Ht]. now apply truthy_true.
Qed.

Lemma stripped_lines_nil_iff (lines : list string) :
  map strip (filter (fun line => truthy (strip line)) lines) <> []
  <-> exists line, In line lines /\ has_nonspace line = true.
Proof.
  split.
  - intros H.
    destruct (filter (fun line => truthy (strip line)) lines)
      as [| line rest] eqn:E; [now contradiction H |].
    assert (Hin : In line (filter (fun line => truthy (strip line)) lines))
      by (rewrite E; now left).
    apply filter_In in Hin as [Hin Ht].
    exists line. split; [exact Hin |]. now rewrite <- truthy_strip.
  - intros (line & Hin & Hn) H.
    apply map_eq_nil in H.
    assert (Hf : In line (filter (fun line => truthy (strip line)) lines)).
    { apply filter_In. split; [exact Hin |]. now rewrite truthy_strip. }
    rewrite H in Hf. destruct Hf.
Qed.

End Strings.

(** C9, as stated, fails: on a labels.txt that holds blank lines only,
    [load_model] completes and leaves the label list empty. *)
Lemma blank_file_gives_no_label :
  fst (load_model Sim.rt_blank (initial_globals Sim.rt_blank)) = Ok tt
  /\ labels (snd (load_model Sim.rt_blank (initial_globals Sim.rt_blank))) = [].
Proof. split; vm_compute; reflexivity. Qed.

(** C9, amended: when [load_model] completes, the label list holds the
    stripped non-blank lines of labels.txt, in file order; every label
    is a non-empty string; and the list is non-empty exactly when the
    file has a line with a character that is not white space. *)
Theorem load_model_labels (rt : Runtime) (g g' : globals rt) :
  load_model rt g = (Ok tt, g') ->
  exists text,
    open_read rt "labels.txt" = Ok text
    /\ labels g'
       = map PyStr.strip
           (filter (fun line => PyStr.truthy (PyStr.strip line))
              (PyStr.readlines text))
    /\ Forall (fun l => l <> EmptyString) (labels g')
    /\ (labels g' <> []
        <-> exists line, In line (PyStr.readlines text)
                         /\ PyStr.has_nonspace line = true).
Proof.
  unfold load_model. intros H.
  do 11 ok_step H.
  apply write_ok in H as [_ ->].
  match goal with
  | E : open_read rt _ = Ok ?t |- _ => exists t; split; [exact E |]
  end.
  cbn [labels set_labels].
  split; [reflexivity |].
  split; [apply stripped_lines_nonempty | apply stripped_lines_nil_iff].
Qed.

Lemma load_model_labels_witness :
  load_model Sim.rt5 (initial_globals Sim.rt5) = (Ok tt, Sim.g5)
  /\ exists text,
       open_read Sim.rt5 "labels.txt" = Ok text
       /\ labels Sim.g5
          = map PyStr.strip
              (filter (fun line => PyStr.truthy (PyStr.strip line))
                 (PyStr.readlines text))
       /\ Forall (fun l => l <> EmptyString) (labels Sim.g5)
       /\ (labels Sim.g5 <> []
           <-> exists line, In line (PyStr.readlines text)
                            /\ PyStr.has_nonspace line = true).
Proof.
  split; [vm_compute; reflexivity |].
  apply (@load_model_labels Sim.rt5 (initial_globals Sim.rt5) Sim.g5).
  vm_compute. reflexivity.
Defined.

(* ================================================================== *)
(** * Lines and stripping *)
(* ================================================================== *)

Section LineFacts.

Import PyStr.
Local Open Scope string_scope.

Local Abbreviation chars := list_ascii_of_string.

Lemma isspace_LF : isspace LF = true.
Proof. reflexivity. Qed.

Lemma isspace_CR : isspace CR = true.
Proof. reflexivity. Qed.

Lemma chars_app s t : chars (s ++ t) = (chars s ++ chars t)%list.
Proof. induction s as [| c s IH]; simpl; [reflexivity | now rewrite IH]. Qed.

Lemma rstrip_app_space s c :
  isspace c = true -> rstrip (s ++ String c "") = rstrip s.
Proof.
  intros H. induction s as [| a s IH]; simpl.
  - now rewrite H.
  - now rewrite IH.
Qed.

Lemma lstrip_blank s : has_nonspace s = false -> lstrip s = "".
Proof.
  unfold has_nonspace. induction s as [| c s IH]; simpl; [reflexivity |].
  destruct (isspace c); simpl; [exact IH | discriminate].
Qed.

Lemma lstrip_app s t :
  lstrip (s ++ t) = if has_nonspace s then lstrip s ++ t else lstrip t.
Proof.
  unfold has_nonspace. induction s as [| c s IH]; simpl; [reflexivity |].
  destruct (isspace c); simpl; [exact IH | reflexivity].
Qed.

(** A trailing white-space character does not change the stripped
    line. *)
Lemma strip_app_space s c :
  isspace c = true -> strip (s ++ String c "") = strip s.
Proof.
  intros H. unfold strip. rewrite lstrip_app.
  destruct (has_nonspace s) eqn:E.
  - now apply rstrip_app_space.
  - rewrite (lstrip_blank _ E). simpl. now rewrite H.
Qed.

Lemma lstrip_chars s x : In x (chars (lstrip s)) -> In x (chars s).
Proof.
  induction s as [| c s IH]; simpl; [tauto |].
  destruct (isspace c); simpl; tauto.
Qed.

Lemma rstrip_chars s x : In x (chars (rstrip s)) -> In x (chars s).
Proof.
  induction s as [| c s IH]; simpl; [tauto |].
  destruct (rstrip s) as [| c' r].
  - destruct (isspace c); simpl; tauto.
  - simpl in *. tauto.
Qed.

Lemma strip_chars s x : In x (chars (strip s)) -> In x (chars s).
Proof. intros H. now apply lstrip_chars, rstrip_chars. Qed.

(** ** The stripped line neither starts nor ends with white space *)

Lemma lstrip_starts_clean s : starts_clean (lstrip s).
Proof.
  induction s as [| c s IH]; simpl; [exact I |].
  destruct (isspace c) eqn:E; [exact IH | exact E].
Qed.

Lemma lstrip_fixed s : starts_clean s -> lstrip s = s.
Proof. destruct s as [| c s]; simpl; [reflexivity | now intros ->]. Qed.

Lemma rstrip_starts_clean s : starts_clean s -> starts_clean (rstrip s).
Proof.
  destruct s as [| c s]; simpl; [exact id |]. intros H.
  destruct (rstrip s); [rewrite H |]; exact H.
Qed.

Lemma rstrip_idempotent s : rstrip (rstrip s) = rstrip s.
Proof.
  induction s as [| c s IH]; simpl; [reflexivity |].
  destruct (rstrip s) as [| c' r] eqn:E.
  - destruct (isspace c) eqn:Ec; simpl; [reflexivity | now rewrite Ec].
  - simpl in *. rewrite IH. reflexivity.
Qed.

Lemma strip_idempotent s : strip (strip s) = strip s.
Proof.
  unfold strip.
  rewrite (lstrip_fixed _ (rstrip_starts_clean _ (lstrip_starts_clean s))).
  apply rstrip_idempotent.
Qed.

(** ** Lines of a text *)

Lemma split_keepends_chars s line x :
  In line (split_keepends s) -> In x (chars line) -> In x (chars s).
Proof.
  revert line. induction s as [| c s IH]; simpl; intros line Hl Hx; [tauto |].
  destruct (Ascii.eqb c LF).
  - destruct Hl as [<- | Hl]; simpl in *; [tauto | right; eauto].
  - destruct (split_keepends s) as [| l ls].
    + destruct Hl as [<- | []]. simpl in Hx. tauto.
    + destruct Hl as [<- | Hl].
      * simpl in Hx. destruct Hx as [-> | Hx]; [now left |].
        right. apply (IH l); [now left | exact Hx].
      * right. apply (IH line); [now right | exact Hx].
Qed.

(** A line holds a line feed at its end only. *)
Lemma split_keepends_shape s :
  Forall (fun line =>
            exists body,
              ~ In LF (chars body)
              /\ (line = body \/ line = body ++ String LF ""))
         (split_keepends s).
Proof.
  induction s as [| c s IH]; simpl; [constructor |].
  destruct (Ascii.eqb_spec c LF) as [-> | Hc].
  - constructor; [| exact IH].
    exists "". split; [simpl; tauto | now right].
  - destruct (split_keepends s) as [| l ls].
    + constructor; [| constructor].
      exists (String c ""). split; [| now left].
      simpl. intros [E | []]. congruence.
    + inversion IH as [| ? ? (body & Hb & Hl) Hls]; subst.
      constructor; [| exact Hls].
      exists (String c body). split.
      * simpl. intros [E | E]; [congruence | tauto].
      * destruct Hl as [-> | ->]; [now left | now right].
Qed.

Lemma universal_newlines_no_CR s : ~ In CR (chars (universal_newlines s)).
Proof.
  induction s as [| c s IH]; simpl; [tauto |].
  destruct (Ascii.eqb_spec c CR) as [-> | Hc].
  - destruct s as [| c' s']; [simpl; intros [E | []]; discriminate E |].
    destruct (Ascii.eqb c' LF); [exact IH |].
    simpl. intros [E | E]; [discriminate E | now apply IH].
  - simpl. intros [E | E]; [congruence | now apply IH].
Qed.

Lemma universal_newlines_fixed s :
  ~ In CR (chars s) -> universal_newlines s = s.
Proof.
  induction s as [| c s IH]; simpl; [reflexivity |]. intros H.
  destruct (Ascii.eqb_spec c CR) as [-> | Hc]; [tauto |].
  rewrite IH by tauto. reflexivity.
Qed.

End LineFacts.

Section LabelFacts.

Import PyStr.
Local Open Scope string_scope.

Lemma labels_of_text_clean text :
  Forall (fun l => strip l = l /\ one_line l) (labels_of_text text).
Proof.
  unfold labels_of_text. apply Forall_map, Forall_forall.
  intros line Hin. apply filter_In in Hin as [Hin _].
  split; [apply strip_idempotent |].
  unfold readlines in Hin. split.
  - pose proof (split_keepends_shape (universal_newlines text)) as Hshape.
    rewrite Forall_forall in Hshape.
    destruct (Hshape _ Hin) as (body & Hb & [-> | ->]).
    + intros H. apply Hb. now apply strip_chars.
    + rewrite strip_app_space by reflexivity.
      intros H. apply Hb. now apply strip_chars.
  - intros H. apply (universal_newlines_no_CR text).
    eapply split_keepends_chars; [exact Hin |]. now apply strip_chars.
Qed.

Lemma split_keepends_line line rest :
  ~ In LF (list_ascii_of_string line) ->
  split_keepends (line ++ String LF rest)
  = (line ++ String LF "") :: split_keepends rest.
Proof.
  induction line as [| c line IH]; intros H.
  - simpl. reflexivity.
  - simpl in H. cbn [append split_keepends].
    destruct (Ascii.eqb_spec c LF) as [-> | Hc]; [tauto |].
    rewrite IH by tauto. reflexivity.
Qed.

Lemma text_of_lines_no_CR lines :
  Forall one_line lines ->
  ~ In CR (list_ascii_of_string (Sim.text_of_lines lines)).
Proof.
  induction 1 as [| line lines [_ Hcr] _ IH]; simpl; [tauto |].
  rewrite chars_app. intros H. apply in_app_or in H as [H | H]; [tauto |].
  simpl in H. destruct H as [E | H]; [discriminate E | tauto].
Qed.

Lemma readlines_text_of_lines lines :
  Forall one_line lines ->
  readlines (Sim.text_of_lines lines)
  = map (fun line => line ++ String LF "") lines.
Proof.
  intros H. unfold readlines.
  rewrite (universal_newlines_fixed _ (text_of_lines_no_CR H)).
  induction H as [| line lines [Hlf _] _ IH]; [reflexivity |].
  cbn [Sim.text_of_lines fold_right map].
  rewrite split_keepends_line by exact Hlf. f_equal. exact IH.
Qed.

Lemma labels_of_text_of_lines lines :
  Forall one_line lines ->
  labels_of_text (Sim.text_of_lines lines)
  = map strip (filter (fun line => truthy (strip line)) lines).
Proof.
  intros H. unfold labels_of_text. rewrite (readlines_text_of_lines H).
  clear H. induction lines as [| line lines IH]; [reflexivity |].
  cbn [map filter]. rewrite (strip_app_space line LF) by reflexivity.
  destruct (truthy (strip line)); cbn [map]; rewrite IH.
  - rewrite (strip_app_space line LF) by reflexivity. reflexivity.
  - reflexivity.
Qed.

Variable rt : Runtime.

(** What a completed [load_model] went through and left behind. *)
Lemma load_model_inv (g g' : globals rt) :
  load_model rt g = (Ok tt, g') ->
  exists m0 p m1 m2 text,
    AutoModel_from_pretrained rt "google/siglip-base-patch16-224" = Ok m0
    /\ AutoProcessor_from_pretrained rt "google/siglip-base-patch16-224" = Ok p
    /\ Model_to rt m0 (if cuda_is_available rt then "cuda" else "cpu") = Ok m1
    /\ Model_eval rt m1 = Ok m2
    /\ open_read rt "labels.txt" = Ok text
    /\ g' = {| model := Some m2; processor := Some p;
               labels := labels_of_text text |}.
Proof.
  unfold load_model. intros H.
  do 11 ok_step H.
  apply write_ok in H as [_ ->].
  cbn [model processor labels set_model set_processor set_labels] in *.
  repeat match goal with
         | E : Some _ = Some _ |- _ => injection E as <-
         end.
  do 5 eexists. repeat (split; [eassumption |]). reflexivity.
Qed.

End LabelFacts.

(* ================================================================== *)
(** * Further properties of [handler] *)
(* ================================================================== *)

Lemma handler_bad_base64_witness :
  handler Sim.rt5 (JObj [("input"%string, JObj [("image_base64"%string, JNull)])])
    Sim.g5
  = (Ok (ErrorObj "argument should be a bytes-like object or ASCII string"),
     Sim.g5).
Proof.
  apply (@handler_bad_base64 Sim.rt5 _
           (JObj [("image_base64"%string, JNull)]) JNull
           (LibError "argument should be a bytes-like object or ASCII string")
           Sim.g5); reflexivity.
Defined.

Lemma handler_bad_image_witness :
  handler Sim.rt5 (JObj [("input"%string, JObj [("image_base64"%string, JStr "")])])
    Sim.g5
  = (Ok (ErrorObj "cannot identify image file"), Sim.g5).
Proof.
  apply (@handler_bad_image Sim.rt5 _
           (JObj [("image_base64"%string, JStr "")]) (JStr "") []
           (LibError "cannot identify image file") Sim.g5);
    reflexivity.
Defined.

(** A job that is not an object, or has no "input" field, or whose
    "input" is not an object or has no "image_base64" field, is answered
    with the error object of that lookup failure, whatever the libraries
    would do, and the globals are left alone. *)
Theorem handler_rejects_malformed_job (rt : Runtime) event e
    (g : globals rt) :
  py_getitem event "input" = Raise e
  \/ (exists input, py_getitem event "input" = Ok input
                    /\ py_getitem input "image_base64" = Raise e) ->
  handler rt event g = (Ok (ErrorObj (exn_str rt e)), g).
Proof.
  intros [H | (input & H1 & H2)]; rewrite handler_unfold;
    unfold handler_body, bind, lift.
  - rewrite H. reflexivity.
  - rewrite H1; cbv beta iota. rewrite H2. reflexivity.
Qed.

Lemma handler_rejects_malformed_job_witness :
  handler Sim.rt5 (JObj [("input"%string, JArr [JStr "aGk="])]) Sim.g5
  = (Ok (ErrorObj "TypeError"), Sim.g5).
Proof.
  apply (@handler_rejects_malformed_job Sim.rt5 _ TypeError Sim.g5).
  right. exists (JArr [JStr "aGk="]). split; reflexivity.
Defined.

(** While [processor] or [model] is still [None], every job is
    answered with an error object: no list is returned before
    [load_model] has set both globals. *)
Theorem handler_needs_loaded_globals (rt : Runtime) event (g : globals rt) :
  processor g = None \/ model g = None ->
  exists msg, handler rt event g = (Ok (ErrorObj msg), g).
Proof.
  intros Hnone. rewrite handler_unfold.
  pose proof (@handler_body_read_only rt event g) as Hg.
  destruct (handler_body rt event g) as [[rs | e] g'] eqn:E; simpl in Hg; subst g'.
  - exfalso. apply handler_body_ok in E as (probs & Hf & _).
    destruct Hf as (? & ? & ? & ? & ? & ? & ? & ? & ? & ? & ? & Hf).
    decompose [and] Hf. destruct Hnone; congruence.
  - eexists. reflexivity.
Qed.

Lemma handler_needs_loaded_globals_witness :
  exists msg,
    handler Sim.rt5 Sim.job (initial_globals Sim.rt5)
    = (Ok (ErrorObj msg), initial_globals Sim.rt5).
Proof.
  apply (@handler_needs_loaded_globals Sim.rt5 Sim.job (initial_globals Sim.rt5)).
  left. reflexivity.
Defined.

(** A failure of the model call, after every earlier step went through,
    is answered with the error object of that failure. *)
Theorem handler_model_failure (rt : Runtime) event (g : globals rt)
    input image_base64 image_bytes img image proc inputs m device inputs' e :
  py_getitem event "input" = Ok input ->
  py_getitem input "image_base64" = Ok image_base64 ->
  b64decode rt image_base64 = Ok image_bytes ->
  Image_open rt image_bytes = Ok img ->
  Image_convert rt img "RGB" = Ok image ->
  processor g = Some proc ->
  processor_call rt proc
    (map (fun label => ("a photo of " ++ label)%string) (labels g)) image
    = Ok inputs ->
  model g = Some m ->
  parameters_device rt m = Ok device ->
  Inputs_to rt inputs device = Ok inputs' ->
  model_logits_per_image rt m inputs' = Raise e ->
  handler rt event g = (Ok (ErrorObj (exn_str rt e)), g).
Proof.
  intros H1 H2 H3 H4 H5 H6 H7 H8 H9 H10 H11.
  rewrite handler_unfold.
  unfold handler_body, bind, lift, read, the_processor, the_model.
  rewrite H1; cbv beta iota. rewrite H2; cbv beta iota.
  rewrite H3; cbv beta iota. rewrite H4; cbv beta iota.
  rewrite H5; cbv beta iota. rewrite H6; cbv beta iota.
  rewrite H7; cbv beta iota. rewrite H8; cbv beta iota.
  rewrite H9; cbv beta iota. rewrite H10; cbv beta iota.
  rewrite H8; cbv beta iota. rewrite H11; cbv beta iota.
  reflexivity.
Qed.

Lemma handler_model_failure_witness :
  let rt := with_failing_model Sim.rt5 "CUDA out of memory" in
  let g := snd (load_model rt (initial_globals rt)) in
  handler rt Sim.job g = (Ok (ErrorObj "CUDA out of memory"), g).
Proof.
  cbv zeta.
  apply (@handler_model_failure (with_failing_model Sim.rt5 "CUDA out of memory")
           Sim.job _
           (JObj [("image_base64"%string, JStr "aGk=")]) (JStr "aGk=")
           (list_byte_of_string "aGk=") (list_byte_of_string "aGk=")
           (list_byte_of_string "aGk=") tt
           (map (fun l => ("a photo of " ++ l)%string) (labels Sim.g5))
           tt tt
           (map (fun l => ("a photo of " ++ l)%string) (labels Sim.g5))
           (LibError "CUDA out of memory"));
    vm_compute; reflexivity.
Defined.

Section Selection.

Lemma Forall2_labels_in (ls : list string) (probs : list Q) idxs rs :
  Forall2 (entry_at ls probs) idxs rs ->
  Forall (fun r => In (label r) ls) rs.
Proof.
  induction 1 as [| idx r idxs rs (Hl & _) _ IH]; constructor.
  - eapply nth_error_In. exact Hl.
  - exact IH.
Qed.

Lemma Forall2_labels_distinct (ls : list string) (probs : list Q) idxs rs :
  NoDup ls -> NoDup idxs ->
  Forall2 (entry_at ls probs) idxs rs ->
  NoDup (map label rs).
Proof.
  intros Hls Hidxs H.
  induction H as [| idx r idxs rs (Hl & _) Hrest IH]; [constructor |].
  inversion Hidxs as [| ? ? Hnotin Hnodup]; subst.
  cbn [map]. constructor; [| now apply IH].
  intros Hin. apply in_map_iff in Hin as (r' & Heq & Hr').
  apply In_nth_error in Hr' as [i Hi].
  destruct (Forall2_nth_error_r Hrest _ Hi) as (idx' & Hidx' & Hl' & _).
  rewrite Heq, <- Hl in Hl'.
  assert (idx' = idx).
  { apply (proj1 (NoDup_nth_error ls) Hls); [| exact Hl'].
    apply nth_error_Some. rewrite Hl'. rewrite Hl. discriminate. }
  subst idx'. apply Hnotin. eapply nth_error_In. exact Hidx'.
Qed.

Lemma NoDup_firstn {A : Type} (n : nat) (l : list A) :
  NoDup l -> NoDup (firstn n l).
Proof.
  intros H. rewrite <- (firstn_skipn n l) in H.
  now apply NoDup_app_remove_r in H.
Qed.

End Selection.

(** Every label of a returned list is an element of the global label
    list: [handler] never invents a label. *)
Theorem handler_labels_from_list (rt : Runtime) event (g : globals rt) rs :
  fst (handler rt event g) = Ok (Results rs) ->
  Forall (fun r => In (label r) (labels g)) rs.
Proof.
  intros H. apply handler_success in H as (probs & _ & Hr).
  exact (Forall2_labels_in Hr).
Qed.

Lemma handler_labels_from_list_witness :
  fst (handler Sim.rt5 Sim.job Sim.g5) = Ok (Results Sim.top5)
  /\ Forall (fun r => In (label r) (labels Sim.g5)) Sim.top5.
Proof.
  split; [vm_compute; reflexivity |].
  apply (@handler_labels_from_list Sim.rt5 Sim.job Sim.g5 Sim.top5).
  vm_compute. reflexivity.
Defined.

(** When the label list has no duplicate, no label is returned twice:
    the entries come from pairwise different positions of the list. *)
Theorem handler_labels_distinct (rt : Runtime) event (g : globals rt) rs :
  argsort_contract rt ->
  NoDup (labels g) ->
  fst (handler rt event g) = Ok (Results rs) ->
  NoDup (map label rs).
Proof.
  intros Hsort Hls H. apply handler_success in H as (probs & _ & Hr).
  apply (Forall2_labels_distinct Hls) in Hr; [exact Hr |].
  apply NoDup_firstn.
  apply (Permutation_NoDup (Permutation_sym (argsort_perm Hsort probs))).
  apply seq_NoDup.
Qed.

Lemma sim_labels_NoDup : NoDup (labels Sim.g5).
Proof.
  change (labels Sim.g5)
    with ["cat"%string; "dog"%string; "bird"%string; "fish"%string;
          "frog"%string].
  repeat constructor; simpl; intuition discriminate.
Qed.

Lemma handler_labels_distinct_witness :
  fst (handler Sim.rt5 Sim.job Sim.g5) = Ok (Results Sim.top5)
  /\ NoDup (map label Sim.top5).
Proof.
  split; [vm_compute; reflexivity |].
  apply (@handler_labels_distinct Sim.rt5 Sim.job Sim.g5 Sim.top5
           (sim_argsort_contract _ _) sim_labels_NoDup).
  vm_compute. reflexivity.
Defined.

(** The first entry is the best match: its score is at least the
    rounded probability of every label, returned or not. *)
Theorem handler_best_first (rt : Runtime) event (g : globals rt) rs :
  argsort_contract rt ->
  fst (handler rt event g) = Ok (Results rs) ->
  exists probs,
    forward g event probs /\
    forall r0 p, nth_error rs 0 = Some r0 -> In p probs ->
                 (py_round p 4 <= score r0)%Q.
Proof.
  intros Hsort H. apply handler_success in H as (probs & Hf & Hr).
  exists probs. split; [exact Hf |].
  intros r0 p Hr0 Hp.
  destruct (Forall2_nth_error_r Hr _ Hr0) as (idx0 & Hidx0 & _ & p0 & Hp0 & ->).
  apply py_round4_mono.
  apply In_nth_error in Hp as [k Hk].
  assert (Hkin : In k (argsort_descending rt probs)).
  { apply (Permutation_in _ (Permutation_sym (argsort_perm Hsort probs))).
    apply in_seq. split; [lia |].
    apply nth_error_Some. rewrite Hk. discriminate. }
  pose proof (argsort_sorted Hsort probs) as Hdesc. unfold descending in Hdesc.
  apply nth_error_firstn_Some in Hidx0.
  destruct (argsort_descending rt probs) as [| i0 rest]; [destruct Hkin |].
  simpl in Hidx0. injection Hidx0 as ->.
  rewrite <- (nth_error_nth_Q _ _ Hk), <- (nth_error_nth_Q _ _ Hp0).
  destruct Hkin as [-> | Hkin]; [apply Qle_refl |].
  inversion Hdesc as [| ? ? _ Hall]; subst.
  rewrite Forall_forall in Hall. now apply Hall.
Qed.

Lemma handler_best_first_witness :
  fst (handler Sim.rt5 Sim.job Sim.g5) = Ok (Results Sim.top5)
  /\ exists probs,
       forward Sim.g5 Sim.job probs /\
       forall r0 p, nth_error Sim.top5 0 = Some r0 -> In p probs ->
                    (py_round p 4 <= score r0)%Q.
Proof.
  split; [vm_compute; reflexivity |].
  apply (@handler_best_first Sim.rt5 Sim.job Sim.g5 Sim.top5
           (sim_argsort_contract _ _)).
  vm_compute. reflexivity.
Defined.

(** With an empty label list [handler] has nothing to return: a run
    that returns a list returns the empty list. *)
Theorem handler_empty_labels (rt : Runtime) event (g : globals rt) rs :
  labels g = [] ->
  fst (handler rt event g) = Ok (Results rs) ->
  rs = [].
Proof.
  intros Hnil H. apply handler_success in H as (probs & _ & Hr).
  rewrite Hnil in Hr.
  destruct Hr as [| idx r idxs rs' (Hl & _) _]; [reflexivity |].
  destruct idx; discriminate Hl.
Qed.

Lemma handler_empty_labels_witness :
  let g := snd (load_model Sim.rt_blank (initial_globals Sim.rt_blank)) in
  labels g = []
  /\ fst (handler Sim.rt_blank Sim.job g) = Ok (Results [])
  /\ @nil entry = [].
Proof.
  cbv zeta. split; [vm_compute; reflexivity |].
  split; [vm_compute; reflexivity |].
  apply (@handler_empty_labels Sim.rt_blank Sim.job
           (snd (load_model Sim.rt_blank (initial_globals Sim.rt_blank))) []).
  - vm_compute. reflexivity.
  - vm_compute. reflexivity.
Defined.

(* ================================================================== *)
(** * Start-up *)
(* ================================================================== *)

(** An exception in [load_model] is not caught by the module script:
    the worker ends with that exception, and the serverless framework,
    whatever it would do with the handler, is never started. *)
Theorem worker_stops_on_load_failure (rt : Runtime)
    (start : (json -> M rt response) -> M rt unit) e :
  fst (load_model rt (initial_globals rt)) = Raise e ->
  fst (worker rt start (initial_globals rt)) = Raise e.
Proof.
  unfold worker, bind.
  destruct (load_model rt (initial_globals rt)) as [[u | e'] g1]; simpl;
    intros H; [discriminate H | injection H as ->; reflexivity].
Qed.

Lemma worker_stops_on_load_failure_witness :
  fst (worker (without_files Sim.rt5)
         (fun h => bind (h Sim.job) (fun _ => ret tt))
         (initial_globals (without_files Sim.rt5)))
  = Raise (LibError "No such file or directory").
Proof.
  apply (@worker_stops_on_load_failure (without_files Sim.rt5)
           (fun h => bind (h Sim.job) (fun _ => ret tt))
           (LibError "No such file or directory")).
  vm_compute. reflexivity.
Defined.

(** A [load_model] that raises leaves the label list as it was: the
    labels are assigned last, after every call that can fail. *)
Theorem load_model_failure_keeps_labels (rt : Runtime) (g g' : globals rt) e :
  load_model rt g = (Raise e, g') -> labels g' = labels g.
Proof.
  unfold load_model, bind, lift, write, the_model.
  cbn [model set_model set_processor].
  destruct (AutoModel_from_pretrained rt _) as [m0 | e0];
    [| intros H; injection H as _ <-; reflexivity].
  destruct (AutoProcessor_from_pretrained rt _) as [p | e0];
    [| intros H; injection H as _ <-; reflexivity].
  destruct (Model_to rt m0 _) as [m1 | e0];
    [| intros H; injection H as _ <-; reflexivity].
  destruct (Model_eval rt m1) as [m2 | e0];
    [| intros H; injection H as _ <-; reflexivity].
  destruct (open_read rt _) as [text | e0];
    [| intros H; injection H as _ <-; reflexivity].
  intros H. discriminate H.
Qed.

Lemma load_model_failure_keeps_labels_witness :
  let rt := without_files Sim.rt5 in
  exists g',
    load_model rt (initial_globals rt)
    = (Raise (LibError "No such file or directory"), g')
    /\ labels g' = labels (initial_globals rt).
Proof.
  cbv zeta.
  exists (snd (load_model (without_files Sim.rt5)
                 (initial_globals (without_files Sim.rt5)))).
  split; [vm_compute; reflexivity |].
  apply (@load_model_failure_keeps_labels (without_files Sim.rt5) _ _
           (LibError "No such file or directory")).
  vm_compute. reflexivity.
Defined.

(** A completed [load_model] sets all three globals, to values that do
    not depend on what they held before: the model and the processor
    are set (not [None]), and loading again from any other globals
    gives the same globals. *)
Theorem load_model_overwrites_globals (rt : Runtime) (g g' : globals rt) :
  load_model rt g = (Ok tt, g') ->
  model g' <> None /\ processor g' <> None
  /\ forall g2, load_model rt g2 = (Ok tt, g').
Proof.
  intros H.
  apply load_model_inv in H
    as (m0 & p & m1 & m2 & text & H1 & H2 & H3 & H4 & H5 & ->).
  split; [discriminate |]. split; [discriminate |].
  intros g2.
  unfold load_model, bind, lift, write, the_model.
  cbn [model set_model set_processor].
  rewrite H1; cbv beta iota. rewrite H2; cbv beta iota.
  rewrite H3; cbv beta iota. rewrite H4; cbv beta iota.
  rewrite H5; cbv beta iota. reflexivity.
Qed.

Lemma load_model_overwrites_globals_witness :
  load_model Sim.rt5 (initial_globals Sim.rt5) = (Ok tt, Sim.g5)
  /\ load_model Sim.rt5 Sim.g5 = (Ok tt, Sim.g5).
Proof.
  split; [vm_compute; reflexivity |].
  apply (@load_model_overwrites_globals Sim.rt5 (initial_globals Sim.rt5) Sim.g5).
  vm_compute. reflexivity.
Defined.

(** Every label left by a completed [load_model] is a clean single
    line: stripping it again changes nothing (no white space at either
    end), and it holds neither a line feed nor a carriage return. *)
Theorem labels_are_clean_lines (rt : Runtime) (g g' : globals rt) :
  load_model rt g = (Ok tt, g') ->
  Forall (fun l => PyStr.strip l = l /\ one_line l) (labels g').
Proof.
  intros H.
  apply load_model_inv in H as (m0 & p & m1 & m2 & text & _ & _ & _ & _ & _ & ->).
  cbn [labels]. apply labels_of_text_clean.
Qed.

Lemma labels_are_clean_lines_witness :
  load_model Sim.rt5 (initial_globals Sim.rt5) = (Ok tt, Sim.g5)
  /\ Forall (fun l => PyStr.strip l = l /\ one_line l) (labels Sim.g5).
Proof.
  split; [vm_compute; reflexivity |].
  apply (@labels_are_clean_lines Sim.rt5 (initial_globals Sim.rt5) Sim.g5).
  vm_compute. reflexivity.
Defined.

(** A labels.txt written as one label per line, each line ended by a
    line feed, is read back as those lines, stripped, without the blank
    ones, in the same order. *)
Theorem labels_of_written_lines (rt : Runtime) (g g' : globals rt) lines :
  Forall one_line lines ->
  open_read rt "labels.txt" = Ok (Sim.text_of_lines lines) ->
  load_model rt g = (Ok tt, g') ->
  labels g'
  = map PyStr.strip
      (filter (fun line => PyStr.truthy (PyStr.strip line)) lines).
Proof.
  intros Hlines Hfile H.
  apply load_model_inv in H as (m0 & p & m1 & m2 & text & _ & _ & _ & _ & H5 & ->).
  rewrite Hfile in H5. injection H5 as <-.
  cbn [labels]. now apply labels_of_text_of_lines.
Qed.

Lemma five_lines_one_line :
  Forall one_line
    ["cat"%string; "dog"%string; "bird"%string; "fish"%string; "frog"%string].
Proof.
  repeat constructor; simpl; intuition discriminate.
Qed.

Lemma labels_of_written_lines_witness :
  labels Sim.g5
  = map PyStr.strip
      (filter (fun line => PyStr.truthy (PyStr.strip line))
         ["cat"%string; "dog"%string; "bird"%string; "fish"%string;
          "frog"%string]).
Proof.
  apply (@labels_of_written_lines Sim.rt5 (initial_globals Sim.rt5) Sim.g5
           _ five_lines_one_line).
  - reflexivity.
  - vm_compute. reflexivity.
Defined.

(** Start-up and a request together: once [load_model] has completed,
    every label in a returned list is a stripped, non-blank line of
    labels.txt. *)
Theorem response_labels_are_file_lines (rt : Runtime) (g0 g : globals rt)
    event rs :
  load_model rt g0 = (Ok tt, g) ->
  fst (handler rt event g) = Ok (Results rs) ->
  exists text,
    open_read rt "labels.txt" = Ok text
    /\ Forall (fun r =>
                 exists line,
                   In line (PyStr.readlines text)
                   /\ label r = PyStr.strip line
                   /\ PyStr.has_nonspace line = true) rs.
Proof.
  intros Hload H.
  apply load_model_inv in Hload
    as (m0 & p & m1 & m2 & text & _ & _ & _ & _ & H5 & ->).
  exists text. split; [exact H5 |].
  apply handler_success in H as (probs & _ & Hr).
  apply Forall2_labels_in in Hr. cbn [labels] in Hr.
  eapply Forall_impl; [| exact Hr].
  intros r Hin. unfold labels_of_text in Hin.
  apply in_map_iff in Hin as (line & Hl & Hin).
  apply filter_In in Hin as [Hin Ht].
  exists line. split; [exact Hin |]. split; [now symmetry |].
  now rewrite <- truthy_strip.
Qed.

Lemma response_labels_are_file_lines_witness :
  load_model Sim.rt5 (initial_globals Sim.rt5) = (Ok tt, Sim.g5)
  /\ fst (handler Sim.rt5 Sim.job Sim.g5) = Ok (Results Sim.top5)
  /\ exists text,
       open_read Sim.rt5 "labels.txt" = Ok text
       /\ Forall (fun r =>
                    exists line,
                      In line (PyStr.readlines text)
                      /\ label r = PyStr.strip line
                      /\ PyStr.has_nonspace line = true) Sim.top5.
Proof.
  split; [vm_compute; reflexivity |].
  split; [vm_compute; reflexivity |].
  apply (@response_labels_are_file_lines Sim.rt5 (initial_globals Sim.rt5)
           Sim.g5 Sim.job Sim.top5); vm_compute; reflexivity.
Defined.

Section LineEnds.

Import PyStr.
Local Open Scope string_scope.

Lemma universal_newlines_crlf line rest :
  ~ In CR (list_ascii_of_string line) ->
  universal_newlines (line ++ String CR (String LF rest))
  = line ++ String LF (universal_newlines rest).
Proof.
  induction line as [| c line IH]; intros H.
  - reflexivity.
  - simpl in H. cbn [append universal_newlines].
    destruct (Ascii.eqb_spec c CR) as [-> | Hc]; [tauto |].
    rewrite IH by tauto. reflexivity.
Qed.

Lemma universal_newlines_text_crlf lines :
  Forall one_line lines ->
  universal_newlines (text_of_lines_crlf lines) = Sim.text_of_lines lines.
Proof.
  induction 1 as [| line lines [_ Hcr] _ IH]; [reflexivity |].
  cbn [text_of_lines_crlf Sim.text_of_lines fold_right].
  rewrite universal_newlines_crlf by exact Hcr.
  f_equal. f_equal. exact IH.
Qed.

End LineEnds.

(** Line ends written as "\r\n" make no difference: such a labels.txt
    gives the same label list, the stripped non-blank lines in order. *)
Theorem labels_of_crlf_lines (rt : Runtime) (g g' : globals rt) lines :
  Forall one_line lines ->
  open_read rt "labels.txt" = Ok (text_of_lines_crlf lines) ->
  load_model rt g = (Ok tt, g') ->
  labels g'
  = map PyStr.strip
      (filter (fun line => PyStr.truthy (PyStr.strip line)) lines).
Proof.
  intros Hlines Hfile H.
  apply load_model_inv in H as (m0 & p & m1 & m2 & text & _ & _ & _ & _ & H5 & ->).
  rewrite Hfile in H5. injection H5 as <-.
  cbn [labels]. rewrite <- (labels_of_text_of_lines Hlines).
  unfold labels_of_text, PyStr.readlines.
  rewrite (universal_newlines_text_crlf Hlines).
  rewrite (universal_newlines_fixed _ (text_of_lines_no_CR Hlines)).
  reflexivity.
Qed.

Lemma labels_of_crlf_lines_witness :
  let rt := Sim.runtime (text_of_lines_crlf ["cat"; " dog "; ""; "bird"]%string)
              Sim.skewed in
  labels (snd (load_model rt (initial_globals rt)))
  = map PyStr.strip
      (filter (fun line => PyStr.truthy (PyStr.strip line))
         ["cat"; " dog "; ""; "bird"]%string).
Proof.
  cbv zeta.
  apply (@labels_of_crlf_lines
           (Sim.runtime (text_of_lines_crlf ["cat"; " dog "; ""; "bird"]%string)
              Sim.skewed)
           (initial_globals _) _ ["cat"; " dog "; ""; "bird"]%string).
  - repeat constructor; simpl; intuition discriminate.
  - reflexivity.
  - vm_compute. reflexivity.
Defined.
